(** * dowel: the Logger dispatch engine and the CSV sink

    A shallow embedding of [dowel/logger.py] and [dowel/csv_output.py].
    Python objects are described by what the two modules read of them (their
    class, and for sinks the two acceptance properties); the mutable fields of
    a [Logger] and of a [CsvOutput] are threaded through a small state and
    exception monad whose trace records the calls that leave the module
    ([output.record], [output.dump], [warnings.warn], the csv writer).

    The sinks registered in a Logger are opaque to it: a call of one of their
    methods is an event of the trace and is taken to return.  [CsvOutput] is
    modelled on its own, with the TabularInput it owns. *)

From stdpp Require Import base decidable option list strings gmap sets.

Local Open Scope string_scope.
Local Open Scope list_scope.

(** ** Python classes and [isinstance] *)

(** A class is identified by its module and [__name__]; [cls_bases] lists the
    proper ancestors (the method resolution order without the class itself). *)
Record pyclass := PyClass {
  cls_module : string;
  cls_name : string;
  cls_bases : list (string * string)
}.

Definition cls_ident (c : pyclass) : string * string := (cls_module c, cls_name c).

Definition cls_mro (c : pyclass) : list (string * string) := cls_ident c :: cls_bases c.

(** [issubclass(c, t)]; no class of the sources registers virtual subclasses *)
Definition issubclass (c t : pyclass) : bool := bool_decide (cls_ident t ∈ cls_mro c).

(** [issubclass(c, ts)] for a tuple of classes [ts] *)
Definition issubclass_any (c : pyclass) (ts : list pyclass) : bool :=
  existsb (issubclass c) ts.

Definition builtin (name : string) : pyclass := PyClass "builtins" name [("builtins", "object")].

Definition object_cls : pyclass := PyClass "builtins" "object" [].
Definition type_cls : pyclass := builtin "type".
Definition str_cls : pyclass := builtin "str".
Definition int_cls : pyclass := builtin "int".
Definition float_cls : pyclass := builtin "float".
Definition complex_cls : pyclass := builtin "complex".
Definition bool_cls : pyclass :=
  PyClass "builtins" "bool" [("builtins", "int"); ("builtins", "object")].
Definition bytes_cls : pyclass := builtin "bytes".
Definition memoryview_cls : pyclass := builtin "memoryview".
Definition NoneType_cls : pyclass := builtin "NoneType".

(** numpy's scalar classes: each is below [numpy.generic], through the
    abstract classes of its kind, and some are also below the Python type of
    the same kind ([float64] below [float], [complex128] below [complex],
    [str_] below [str], [bytes_] below [bytes]). *)
Definition numpy_scalar (name : string) (ancestors : list string)
    (python_base : list string) : pyclass :=
  PyClass "numpy" name
    (((λ a, ("numpy", a)) <$> (ancestors ++ ["generic"])) ++
     ((λ b, ("builtins", b)) <$> (python_base ++ ["object"]))).

Definition numpy_signed (name : string) : pyclass :=
  numpy_scalar name ["signedinteger"; "integer"; "number"] [].
Definition numpy_unsigned (name : string) : pyclass :=
  numpy_scalar name ["unsignedinteger"; "integer"; "number"] [].
Definition numpy_floating (name : string) (python_base : list string) : pyclass :=
  numpy_scalar name ["floating"; "inexact"; "number"] python_base.
Definition numpy_complex (name : string) (python_base : list string) : pyclass :=
  numpy_scalar name ["complexfloating"; "inexact"; "number"] python_base.

(** [np.ScalarType]: the seven Python scalar types followed by numpy's
    concrete scalar classes in the order of their names, as numpy builds the
    tuple on a 64-bit Linux (where [longlong] and [ulonglong] are classes of
    their own beside [int64] and [uint64]). *)
Definition np_ScalarType : list pyclass :=
  [int_cls; float_cls; complex_cls; bool_cls; bytes_cls; str_cls; memoryview_cls]
  ++ [numpy_scalar "bool_" [] [];
      numpy_scalar "bytes_" ["character"; "flexible"] ["bytes"];
      numpy_complex "clongdouble" [];
      numpy_complex "complex128" ["complex"];
      numpy_complex "complex64" [];
      numpy_scalar "datetime64" [] [];
      numpy_floating "float16" [];
      numpy_floating "float32" [];
      numpy_floating "float64" ["float"];
      numpy_signed "int16"; numpy_signed "int32"; numpy_signed "int64";
      numpy_signed "int8";
      numpy_floating "longdouble" [];
      numpy_signed "longlong";
      numpy_scalar "object_" [] [];
      numpy_scalar "str_" ["character"; "flexible"] ["str"];
      numpy_signed "timedelta64";
      numpy_unsigned "uint16"; numpy_unsigned "uint32"; numpy_unsigned "uint64";
      numpy_unsigned "uint8";
      numpy_unsigned "ulonglong";
      numpy_scalar "void" ["flexible"] []].

Definition ABC_cls : pyclass := PyClass "abc" "ABC" [("builtins", "object")].

(** [class LogOutput(abc.ABC)] *)
Definition LogOutput_cls : pyclass :=
  PyClass "dowel.logger" "LogOutput" [("abc", "ABC"); ("builtins", "object")].

(** [class FileOutput(LogOutput)], from [dowel.simple_outputs] *)
Definition FileOutput_cls : pyclass :=
  PyClass "dowel.simple_outputs" "FileOutput"
    [("dowel.logger", "LogOutput"); ("abc", "ABC"); ("builtins", "object")].

(** [class CsvOutput(FileOutput)] *)
Definition CsvOutput_cls : pyclass :=
  PyClass "dowel.csv_output" "CsvOutput"
    [("dowel.simple_outputs", "FileOutput"); ("dowel.logger", "LogOutput");
     ("abc", "ABC"); ("builtins", "object")].

Definition TabularInput_cls : pyclass :=
  PyClass "dowel.tabular_input" "TabularInput" [("builtins", "object")].

(** ** Values that are logged *)

Inductive pyvalue :=
  | VStr (s : string)
  | VInt (z : Z)
  | VBool (b : bool)
  | VNone
  | VTabular (id : nat)                (* a reference to a TabularInput *)
  | VObject (c : pyclass).

(** [type(value)] *)
Definition type_of (v : pyvalue) : pyclass :=
  match v with
  | VStr _ => str_cls
  | VInt _ => int_cls
  | VBool _ => bool_cls
  | VNone => NoneType_cls
  | VTabular _ => TabularInput_cls
  | VObject c => c
  end.

(** [isinstance(value, types)] for a tuple [types] *)
Definition isinstance (v : pyvalue) (types : list pyclass) : bool :=
  issubclass_any (type_of v) types.

(** ** Key patterns

    [keys_accepted] is a regular expression handed to [re.match].  The two
    the sources write are given by name; any other is kept as its matcher. *)
Inductive key_pattern :=
  | PatStart                          (* r'^' *)
  | PatStartEnd                       (* r'^$' *)
  | PatOther (matcher : string → bool).

Definition newline : string := String (Ascii.ascii_of_nat 10) EmptyString.

(** [bool(re.match(pattern, key))].  [$] also matches just before a final
    newline, so [r'^$'] matches the empty key and the key ["\n"]. *)
Definition re_match (p : key_pattern) (key : string) : bool :=
  match p with
  | PatStart => true
  | PatStartEnd => bool_decide (key = "") || bool_decide (key = newline)
  | PatOther matcher => matcher key
  end.

(** ** Objects offered to the Logger

    An object carries an identity, its class, and the two properties the
    Logger reads of a sink.  A class object (an uninstantiated type) is an
    object whose own class is [type] or a metaclass below it. *)
Record pyobject := PyObject {
  obj_id : nat;
  obj_class : pyclass;                 (* type(obj) *)
  types_accepted : list pyclass;
  keys_accepted : key_pattern
}.

(** [isinstance(obj, t)] *)
Definition isinstance_obj (o : pyobject) (t : pyclass) : bool := issubclass (obj_class o) t.

(** [abc.ABCMeta], the class of [LogOutput] and of its subclasses *)
Definition ABCMeta_cls : pyclass :=
  PyClass "abc" "ABCMeta" [("builtins", "type"); ("builtins", "object")].

(** The defaults of [LogOutput]: [types_accepted = ()], [keys_accepted = r'^$'] *)
Definition LogOutput_default (id : nat) (c : pyclass) : pyobject :=
  PyObject id c [] PatStartEnd.

(** ** Exceptions, outcomes and the monad *)

Inductive pyexn :=
  | ValueError (msg : string)
  | IndexError (msg : string)
  | TypeError (msg : string)
  | AttributeError (msg : string).

Inductive outcome (A : Type) :=
  | Returns (a : A)
  | Raises (e : pyexn).
Arguments Returns {A} a.
Arguments Raises {A} e.

(** A computation over a state [St] that emits events [Ev]: it ends by
    returning or raising, and in both cases leaves a state and a trace. *)
Definition M (St Ev A : Type) : Type := St → outcome A * St * list Ev.

Section monad.
Context {St Ev : Type}.

Definition ret {A} (a : A) : M St Ev A := λ s, (Returns a, s, []).

Definition bind {A B} (m : M St Ev A) (k : A → M St Ev B) : M St Ev B :=
  λ s, match m s with
       | (Returns a, s1, t1) =>
           match k a s1 with (r, s2, t2) => (r, s2, t1 ++ t2) end
       | (Raises e, s1, t1) => (Raises e, s1, t1)
       end.

Definition get : M St Ev St := λ s, (Returns s, s, []).
Definition modify (f : St → St) : M St Ev unit := λ s, (Returns (), f s, []).
Definition raise {A} (e : pyexn) : M St Ev A := λ s, (Raises e, s, []).
Definition emit (e : Ev) : M St Ev unit := λ s, (Returns (), s, [e]).

(** [if cond: body] *)
Definition when (cond : bool) (body : M St Ev unit) : M St Ev unit :=
  if cond then body else ret ().

(** [try: body finally: cleanup] *)
Definition try_finally {A} (body : M St Ev A) (cleanup : M St Ev unit) : M St Ev A :=
  λ s, match body s with
       | (r, s1, t1) =>
           match cleanup s1 with
           | (Returns _, s2, t2) => (r, s2, t1 ++ t2)
           | (Raises e, s2, t2) => (Raises e, s2, t1 ++ t2)
           end
       end.

(** [for x in xs: body(x)] *)
Fixpoint for_each {A} (xs : list A) (body : A → M St Ev unit) : M St Ev unit :=
  match xs with
  | [] => ret ()
  | x :: rest => bind (body x) (λ _, for_each rest body)
  end.
End monad.

Notation "'let!' x ':=' m 'in' k" := (bind m (λ x, k))
  (at level 10, x name, m at level 100, k at level 200).
Notation "m '>>' k" := (bind m (λ _, k))
  (at level 90, right associativity).

Definition result_of {St Ev A} (r : outcome A * St * list Ev) : outcome A := r.1.1.
Definition state_of {St Ev A} (r : outcome A * St * list Ev) : St := r.1.2.
Definition trace_of {St Ev A} (r : outcome A * St * list Ev) : list Ev := r.2.

(** [''.join(parts)] and, in general, [sep.join(parts)] *)
Fixpoint str_join (sep : string) (parts : list string) : string :=
  match parts with
  | [] => ""
  | [x] => x
  | x :: rest => x +:+ sep +:+ str_join sep rest
  end.

(** ** The Logger *)

Module Logger.

Inductive event :=
  | ERecord (output : pyobject) (key : string) (value : pyvalue) (prefix : string)
  | EDump (output : pyobject) (step : option Z)
  | EWarn (msg : string).

Record state := State {
  _outputs : list pyobject;
  _prefixes : list string;
  _prefix_str : string;
  _warned_once : gset string;
  _disable_warnings : bool
}.

(** [Logger.__init__] *)
Definition __init__ : state := State [] [] "" ∅ false.

Definition set_outputs (f : list pyobject → list pyobject) (s : state) : state :=
  State (f (_outputs s)) (_prefixes s) (_prefix_str s) (_warned_once s) (_disable_warnings s).
Definition set_prefixes (f : list string → list string) (s : state) : state :=
  State (_outputs s) (f (_prefixes s)) (_prefix_str s) (_warned_once s) (_disable_warnings s).
Definition set_prefix_str (p : string) (s : state) : state :=
  State (_outputs s) (_prefixes s) p (_warned_once s) (_disable_warnings s).
Definition set_warned_once (f : gset string → gset string) (s : state) : state :=
  State (_outputs s) (_prefixes s) (_prefix_str s) (f (_warned_once s)) (_disable_warnings s).
Definition set_disable_warnings (b : bool) (s : state) : state :=
  State (_outputs s) (_prefixes s) (_prefix_str s) (_warned_once s) b.

Abbreviation L := (M state event).

(** [Logger._warn]: the event is the call of [warnings.warn] with the message
    (colorized yellow) and the category [LoggerWarning]. *)
Definition _warn (msg : string) : L string :=
  let! s := get in
  when (negb (_disable_warnings s) && negb (bool_decide (msg ∈ _warned_once s)))
       (emit (EWarn msg)) >>
  modify (set_warned_once (λ w, w ∪ {[msg]})) >>
  ret msg.

(** [Logger.disable_warnings] *)
Definition disable_warnings : L unit := modify (set_disable_warnings true).

(** The acceptance test of [logkv]:
    [isinstance(value, output.types_accepted) and re.match(output.keys_accepted, key)] *)
Definition accepts (output : pyobject) (key : string) (value : pyvalue) : bool :=
  isinstance value (types_accepted output) && re_match (keys_accepted output) key.

(** The loop of [logkv]; it returns [at_least_one_logged]. *)
Fixpoint logkv_loop (outputs : list pyobject) (key : string) (value : pyvalue)
    (at_least_one_logged : bool) : L bool :=
  match outputs with
  | [] => ret at_least_one_logged
  | output :: rest =>
      if accepts output key value then
        let! s := get in
        emit (ERecord output key value (_prefix_str s)) >>
        logkv_loop rest key value true
      else logkv_loop rest key value at_least_one_logged
  end.

Definition no_outputs_msg : string := "No outputs have been added to the logger.".

Definition not_accepted_msg (value : pyvalue) : string :=
  "Log data of type " +:+ cls_name (type_of value) +:+ " was not accepted by any output".

(** [Logger.logkv] *)
Definition logkv (key : string) (value : pyvalue) : L unit :=
  let! s := get in
  when (bool_decide (_outputs s = [])) (_warn no_outputs_msg >> ret ()) >>
  let! s := get in
  let! at_least_one_logged := logkv_loop (_outputs s) key value false in
  when (negb at_least_one_logged) (_warn (not_accepted_msg value) >> ret ()).

(** [Logger.log] *)
Definition log (value : pyvalue) : L unit := logkv "" value.

(** [Logger.add_output] *)
Definition add_output (output : pyobject) : L unit :=
  if isinstance_obj output type_cls then
    raise (ValueError "Output object must be instantiated - don't pass a type.")
  else if negb (isinstance_obj output LogOutput_cls) then
    raise (ValueError "Output object must be a subclass of LogOutput")
  else modify (set_outputs (λ outs, outs ++ [output])).

(** [Logger.remove_all] *)
Definition remove_all : L unit := modify (set_outputs (λ _, [])).

(** [[output for output in outputs if not isinstance(output, output_type)]] *)
Fixpoint outputs_not_of (outputs : list pyobject) (output_type : pyclass) : list pyobject :=
  match outputs with
  | [] => []
  | output :: rest =>
      if negb (isinstance_obj output output_type)
      then output :: outputs_not_of rest output_type
      else outputs_not_of rest output_type
  end.

(** [Logger.remove_output_type] *)
Definition remove_output_type (output_type : pyclass) : L unit :=
  modify (set_outputs (λ outs, outputs_not_of outs output_type)).

(** [Logger.reset_output] *)
Definition reset_output (output : pyobject) : L unit :=
  remove_output_type (obj_class output) >>
  add_output output.

(** The scan of [has_output_type], which returns at the first instance *)
Fixpoint scan_output_type (outputs : list pyobject) (output_type : pyclass) : bool :=
  match outputs with
  | [] => false
  | output :: rest =>
      if isinstance_obj output output_type then true
      else scan_output_type rest output_type
  end.

(** [Logger.has_output_type] *)
Definition has_output_type (output_type : pyclass) : L bool :=
  let! s := get in
  ret (scan_output_type (_outputs s) output_type).

(** [Logger.dump_output_type] *)
Definition dump_output_type (output_type : pyclass) (step : option Z) : L unit :=
  let! s := get in
  for_each (_outputs s) (λ output,
    when (isinstance_obj output output_type) (emit (EDump output step))).

(** [Logger.dump_all] *)
Definition dump_all (step : option Z) : L unit :=
  let! s := get in
  for_each (_outputs s) (λ output, emit (EDump output step)).

(** [Logger.push_prefix] *)
Definition push_prefix (prefix : string) : L unit :=
  modify (set_prefixes (λ ps, ps ++ [prefix])) >>
  let! s := get in
  modify (set_prefix_str (str_join "" (_prefixes s))).

(** [del lst[-1]]: [None] stands for the IndexError of an empty list *)
Fixpoint del_last {A} (l : list A) : option (list A) :=
  match l with
  | [] => None
  | [_] => Some []
  | x :: rest => cons x <$> del_last rest
  end.

(** [Logger.pop_prefix] *)
Definition pop_prefix : L unit :=
  let! s := get in
  match del_last (_prefixes s) with
  | None => raise (IndexError "list assignment index out of range")
  | Some ps =>
      modify (set_prefixes (λ _, ps)) >>
      let! s := get in
      modify (set_prefix_str (str_join "" (_prefixes s)))
  end.

(** [Logger.prefix], the context manager around a [body] *)
Definition prefix {A} (p : string) (body : L A) : L A :=
  push_prefix p >>
  try_finally body pop_prefix.

(** A call of one public method, and a client that makes a sequence of
    calls on one instance, going on after a call that raised. *)
Inductive call :=
  | Call_logkv (key : string) (value : pyvalue)
  | Call_log (value : pyvalue)
  | Call_add_output (output : pyobject)
  | Call_remove_all
  | Call_remove_output_type (output_type : pyclass)
  | Call_reset_output (output : pyobject)
  | Call_has_output_type (output_type : pyclass)
  | Call_dump_output_type (output_type : pyclass) (step : option Z)
  | Call_dump_all (step : option Z)
  | Call_push_prefix (prefix : string)
  | Call_pop_prefix
  | Call_disable_warnings.

Definition perform (c : call) : L unit :=
  match c with
  | Call_logkv key value => logkv key value
  | Call_log value => log value
  | Call_add_output output => add_output output
  | Call_remove_all => remove_all
  | Call_remove_output_type t => remove_output_type t
  | Call_reset_output output => reset_output output
  | Call_has_output_type t => has_output_type t >> ret ()
  | Call_dump_output_type t step => dump_output_type t step
  | Call_dump_all step => dump_all step
  | Call_push_prefix p => push_prefix p
  | Call_pop_prefix => pop_prefix
  | Call_disable_warnings => disable_warnings
  end.

(** The state and the trace after a sequence of calls *)
Fixpoint run (calls : list call) (s : state) : state * list event :=
  match calls with
  | [] => (s, [])
  | c :: rest =>
      match perform c s with
      | (_, s1, t1) =>
          match run rest s1 with (s2, t2) => (s2, t1 ++ t2) end
      end
  end.

End Logger.

(** ** Python dictionaries, in insertion order *)

Definition pydict (V : Type) : Type := list (string * V).

(** [d[key] = value]: overwrite in place, or append a new key *)
Fixpoint dict_set {V} (d : pydict V) (key : string) (value : V) : pydict V :=
  match d with
  | [] => [(key, value)]
  | (k, v) :: rest =>
      if bool_decide (k = key) then (k, value) :: rest
      else (k, v) :: dict_set rest key value
  end.

(** [d.get(key, default)] *)
Fixpoint dict_get {V} (d : pydict V) (key : string) (default : V) : V :=
  match d with
  | [] => default
  | (k, v) :: rest => if bool_decide (k = key) then v else dict_get rest key default
  end.

(** [d.keys()], as a list and as the set it compares equal to *)
Definition dict_keys {V} (d : pydict V) : list string := d.*1.
Definition dict_keyset {V} (d : pydict V) : gset string := list_to_set (dict_keys d).

(** ** TabularInput *)

Module TabularInput.

(** Modelled from the spec: [dowel/tabular_input.py] is not among the sources.
    A TabularInput is an ordered mapping from key to value with a set of
    consumed keys. *)
Record state := State {
  _dict : pydict pyvalue;
  _consumed : gset string
}.

Definition __init__ : state := State [] ∅.

(** Modelled from the spec: [record] inserts or overwrites [key], keeps the
    position of a key already present, and clears its consumed marker. *)
Definition record (key : string) (value : pyvalue) (t : state) : state :=
  State (dict_set (_dict t) key value) (_consumed t ∖ {[key]}).

(** Modelled from the spec: [empty] is true iff no key is recorded. *)
Definition empty (t : state) : bool :=
  match _dict t with [] => true | _ :: _ => false end.

(** The display string of a value that is neither a string nor a scalar *)
Definition display (v : pyvalue) : string :=
  match v with
  | VNone => "None"
  | VTabular _ => "<TabularInput>"
  | VObject c => "<" +:+ cls_name c +:+ ">"
  | _ => ""
  end.

(** Modelled from the spec: [as_primitive_dict] keeps the values that are
    strings or scalars (instances of [str] or of one of [np.ScalarType]) and
    coerces any other value to its display string. *)
Definition as_primitive_dict (t : state) : pydict pyvalue :=
  (λ kv, if isinstance kv.2 (str_cls :: np_ScalarType) then kv
         else (kv.1, VStr (display kv.2))) <$> _dict t.

(** Modelled from the spec: [clear] removes every key and the consumed set. *)
Definition clear (t : state) : state := __init__.

End TabularInput.

(** ** What the running process decides

    [str.format] renders a set by its [repr], which lists the elements in the
    order of the set's hash table; that order follows the string hashes of
    the process and the way the set was built.  The two renderings the CSV
    sink asks for are therefore taken as given: of a copy of the header set,
    and of the set built from a list of keys. *)
Class PyProcess := {
  set_repr : gset string → string;
  keys_repr : list string → string
}.

(** A fact that holds whatever the process renders *)
Definition in_every_process (fact : PyProcess → Prop) : Prop :=
  ∀ process, fact process.

(** ** csv.DictWriter *)

Inductive extras := ExtrasRaise | ExtrasIgnore.

Record DictWriter := MkDictWriter {
  dw_fieldnames : gset string;
  dw_restval : pyvalue;
  dw_extrasaction : extras
}.

(** ** The CSV sink *)

Module CsvOutput.

Inductive event :=
  | EWriteHeader (names : list string)      (* the row written by writeheader *)
  | EWriteRow (cells : list pyvalue)        (* the row written by writerow *)
  | EFlush                                  (* self._log_file.flush() *)
  | EWarn (msg : string).                   (* warnings.warn(..., CsvOutputWarning) *)

Record state := State {
  _writer : option DictWriter;
  _fieldnames : option (gset string);
  _warned_once : gset string;
  _disable_warnings : bool;
  tabular : TabularInput.state
}.

(** [CsvOutput.__init__] *)
Definition __init__ : state := State None None ∅ false TabularInput.__init__.

Definition set_writer (w : option DictWriter) (s : state) : state :=
  State w (_fieldnames s) (_warned_once s) (_disable_warnings s) (tabular s).
Definition set_fieldnames (f : option (gset string)) (s : state) : state :=
  State (_writer s) f (_warned_once s) (_disable_warnings s) (tabular s).
Definition set_warned_once (f : gset string → gset string) (s : state) : state :=
  State (_writer s) (_fieldnames s) (f (_warned_once s)) (_disable_warnings s) (tabular s).
Definition set_disable_warnings (b : bool) (s : state) : state :=
  State (_writer s) (_fieldnames s) (_warned_once s) b (tabular s).
Definition set_tabular (f : TabularInput.state → TabularInput.state) (s : state) : state :=
  State (_writer s) (_fieldnames s) (_warned_once s) (_disable_warnings s) (f (tabular s)).

Abbreviation C := (M state event).

(** [CsvOutput.types_accepted]: [(str, ) + np.ScalarType] *)
Definition types_accepted : list pyclass := str_cls :: np_ScalarType.

(** [CsvOutput.keys_accepted]: [r'^'] *)
Definition keys_accepted : key_pattern := PatStart.

(** A CsvOutput instance as the Logger sees it *)
Definition as_object (id : nat) : pyobject :=
  PyObject id CsvOutput_cls types_accepted keys_accepted.

(** [CsvOutput.record] *)
Definition record (key : string) (value : pyvalue) (prefix : string) : C unit :=
  modify (set_tabular (TabularInput.record key value)).

(** [CsvOutput._warn] *)
Definition _warn (msg : string) : C string :=
  let! s := get in
  when (negb (_disable_warnings s) && negb (bool_decide (msg ∈ _warned_once s)))
       (emit (EWarn msg)) >>
  modify (set_warned_once (λ w, w ∪ {[msg]})) >>
  ret msg.

(** [CsvOutput.disable_warnings] *)
Definition disable_warnings : C unit := modify (set_disable_warnings true).

(** The message of the inconsistent-keys warning.  Its two arguments are
    [set(self._fieldnames)], a copy of the header set, and
    [set(to_csv.keys())], the set built from the keys of the snapshot in the
    order of the dictionary. *)
Definition inconsistent_msg `{PyProcess} (fieldnames : gset string) (keys : list string) :
    string :=
  "Inconsistent TabularInput keys detected. " +:+
  "CsvOutput keys: " +:+ set_repr fieldnames +:+ ". " +:+
  "TabularInput keys: " +:+ keys_repr keys +:+ ". " +:+
  "Did you change key sets after your first " +:+
  "logger.log(TabularInput)?".

(** [DictWriter.writeheader]; the header and every row list the field names
    in the order the set is iterated, taken here to be that of [elements] *)
Definition writeheader (w : DictWriter) : C unit :=
  emit (EWriteHeader (elements (dw_fieldnames w))).

(** [DictWriter.writerow]: with [extrasaction='raise'] a key outside the
    field names is a ValueError; a missing field gets [restval]. *)
Definition writerow (w : DictWriter) (rowdict : pydict pyvalue) : C unit :=
  if match dw_extrasaction w with
     | ExtrasRaise => negb (bool_decide (dict_keyset rowdict ⊆ dw_fieldnames w))
     | ExtrasIgnore => false
     end
  then raise (ValueError "dict contains fields not in fieldnames")
  else emit (EWriteRow ((λ key, dict_get rowdict key (dw_restval w)) <$>
                          elements (dw_fieldnames w))).

(** [CsvOutput.dump] *)
Definition dump `{PyProcess} (step : option Z) : C unit :=
  let! s := get in
  if TabularInput.empty (tabular s) then ret ()
  else
    let to_csv := TabularInput.as_primitive_dict (tabular s) in
    if bool_decide (dict_keys to_csv = []) && negb (bool_decide (is_Some (_writer s)))
    then ret ()
    else
      when (negb (bool_decide (is_Some (_writer s))))
        (let fieldnames := dict_keyset to_csv in
         let w := MkDictWriter fieldnames (VStr "") ExtrasIgnore in
         modify (set_fieldnames (Some fieldnames)) >>
         modify (set_writer (Some w)) >>
         writeheader w) >>
      let! s := get in
      match _fieldnames s with
      | Some fieldnames =>
          when (negb (bool_decide (dict_keyset to_csv = fieldnames)))
            (_warn (inconsistent_msg fieldnames (dict_keys to_csv)) >> ret ())
      | None => raise (TypeError "'NoneType' object is not iterable")
      end >>
      let! s := get in
      match _writer s with
      | Some w => writerow w to_csv
      | None => raise (AttributeError "'NoneType' object has no attribute 'writerow'")
      end >>
      emit EFlush >>
      modify (set_tabular TabularInput.clear).

(** A call of one method, and a sequence of calls on one instance *)
Inductive call :=
  | Call_record (key : string) (value : pyvalue) (prefix : string)
  | Call_dump (step : option Z)
  | Call_disable_warnings.

Definition perform `{PyProcess} (c : call) : C unit :=
  match c with
  | Call_record key value prefix => record key value prefix
  | Call_dump step => dump step
  | Call_disable_warnings => disable_warnings
  end.

Fixpoint run `{PyProcess} (calls : list call) (s : state) : state * list event :=
  match calls with
  | [] => (s, [])
  | c :: rest =>
      match perform c s with
      | (_, s1, t1) =>
          match run rest s1 with (s2, t2) => (s2, t1 ++ t2) end
      end
  end.

End CsvOutput.

(** ** Vocabulary of the statements *)

(** The concatenation of a stack of strings, bottom first *)
Definition concat_all (parts : list string) : string := foldr String.append "" parts.

(** The [record] calls of a Logger trace, in order *)
Definition record_calls (t : list Logger.event) : list (pyobject * string * pyvalue * string) :=
  omap (λ e, match e with
             | Logger.ERecord o k v p => Some (o, k, v, p)
             | _ => None
             end) t.

Definition logger_warning (e : Logger.event) : option string :=
  match e with Logger.EWarn msg => Some msg | _ => None end.

Definition csv_warning (e : CsvOutput.event) : option string :=
  match e with CsvOutput.EWarn msg => Some msg | _ => None end.

(** The derived string agrees with the stack *)
Definition prefix_inv (s : Logger.state) : Prop :=
  Logger._prefix_str s = concat_all (Logger._prefixes s).

(** What leaves the stack and the derived string alone *)
Definition prefix_frame (s s' : Logger.state) (t : list Logger.event) : Prop :=
  Logger._prefixes s' = Logger._prefixes s ∧ Logger._prefix_str s' = Logger._prefix_str s.

(** What [Logger._warn msg] leaves in the state and in the trace *)
Definition logger_marked (msg : string) (s : Logger.state) : Logger.state :=
  Logger.set_warned_once (λ w, w ∪ {[msg]}) s.

Definition logger_emitted (msg : string) (s : Logger.state) : list Logger.event :=
  if Logger._disable_warnings s then []
  else if bool_decide (msg ∈ Logger._warned_once s) then []
  else [Logger.EWarn msg].

(** The outputs that accept a key and a value, in registration order *)
Definition accepting (outputs : list pyobject) (key : string) (value : pyvalue) : list pyobject :=
  List.filter (λ o, isinstance value (types_accepted o) && re_match (keys_accepted o) key) outputs.

(** What [CsvOutput._warn msg] leaves in the state and in the trace *)
Definition csv_marked (msg : string) (s : CsvOutput.state) : CsvOutput.state :=
  CsvOutput.set_warned_once (λ w, w ∪ {[msg]}) s.

Definition csv_emitted (msg : string) (s : CsvOutput.state) : list CsvOutput.event :=
  if CsvOutput._disable_warnings s then []
  else if bool_decide (msg ∈ CsvOutput._warned_once s) then []
  else [CsvOutput.EWarn msg].

(** The writer the sink builds for a header set *)
Definition csv_writer (fieldnames : gset string) : DictWriter :=
  MkDictWriter fieldnames (VStr "") ExtrasIgnore.

(** The writer and the header set of a sink are unset together, or the
    writer is the one built for the header set. *)
Definition csv_inv (s : CsvOutput.state) : Prop :=
  match CsvOutput._writer s, CsvOutput._fieldnames s with
  | None, None => True
  | Some w, Some fieldnames => w = csv_writer fieldnames
  | _, _ => False
  end.

(** The cells of a row under a header set, column by column *)
Definition csv_row (fieldnames : gset string) (rowdict : pydict pyvalue) : list pyvalue :=
  (λ key, dict_get rowdict key (VStr "")) <$> elements fieldnames.

(** The data rows of a CsvOutput trace *)
Definition rows_written (t : list CsvOutput.event) : list (list pyvalue) :=
  omap (λ e, match e with CsvOutput.EWriteRow cells => Some cells | _ => None end) t.

(** A computation satisfies a relation between the state before, the state
    after and the trace when every run of it does, returning or raising. *)
Definition satisfies {St Ev A} (Q : St → St → list Ev → Prop) (m : M St Ev A) : Prop :=
  ∀ s, Q s (state_of (m s)) (trace_of (m s)).

(** The discipline both [_warn] methods follow, over any state with a
    de-duplication set and a disabling flag: the set only grows, the flag
    only latches, and a message is emitted only when it is new to the set and
    the flag is down, and is then in the set. *)
Section discipline.
Context {St Ev : Type}.
Variable warned : St → gset string.
Variable disabled : St → bool.
Variable warning : Ev → option string.

Definition warnings_of (t : list Ev) : list string := omap warning t.

Definition warn_post (s s' : St) (t : list Ev) : Prop :=
  warned s ⊆ warned s' ∧
  (disabled s = true → disabled s' = true ∧ warnings_of t = []) ∧
  NoDup (warnings_of t) ∧
  ∀ msg, msg ∈ warnings_of t → (msg ∉ warned s) ∧ (msg ∈ warned s').

Definition quiet (f : St → St) : Prop :=
  ∀ s, warned s ⊆ warned (f s) ∧ (disabled s = true → disabled (f s) = true).
End discipline.

(** An output instance: an instance of [LogOutput] that is not a class *)
Definition is_output_instance (o : pyobject) : bool :=
  negb (isinstance_obj o type_cls) && isinstance_obj o LogOutput_cls.

(** The sink calls of a Logger trace: everything but the warnings *)
Definition sink_events (t : list Logger.event) : list Logger.event :=
  List.filter (λ e, match e with Logger.EWarn _ => false | _ => true end) t.

(** Two Logger states that differ at most in the warning flag and set *)
Definition same_routing (s s' : Logger.state) : Prop :=
  Logger._outputs s = Logger._outputs s' ∧ Logger._prefixes s = Logger._prefixes s' ∧
  Logger._prefix_str s = Logger._prefix_str s'.

(** The header rows of a CsvOutput trace *)
Definition header_rows (t : list CsvOutput.event) : list (list string) :=
  omap (λ e, match e with CsvOutput.EWriteHeader names => Some names | _ => None end) t.

(** The lines a CsvOutput trace writes: header and data rows, in order *)
Definition csv_lines (t : list CsvOutput.event) : list CsvOutput.event :=
  List.filter (λ e, match e with
                    | CsvOutput.EWriteHeader _ | CsvOutput.EWriteRow _ => true
                    | _ => false
                    end) t.

(** Two CsvOutput states that differ at most in the warning flag and set *)
Definition same_file (s s' : CsvOutput.state) : Prop :=
  CsvOutput._writer s = CsvOutput._writer s' ∧
  CsvOutput._fieldnames s = CsvOutput._fieldnames s' ∧
  CsvOutput.tabular s = CsvOutput.tabular s'.

(** The data rows and the flushes of a CsvOutput trace, in order *)
Definition rows_and_flushes (t : list CsvOutput.event) : list CsvOutput.event :=
  List.filter (λ e, match e with
                    | CsvOutput.EWriteRow _ | CsvOutput.EFlush => true
                    | _ => false
                    end) t.

(** What a CsvOutput trace does to the file: everything but the warnings *)
Definition file_events (t : list CsvOutput.event) : list CsvOutput.event :=
  List.filter (λ e, match e with CsvOutput.EWarn _ => false | _ => true end) t.

(** * Properties *)

(** ** The model on concrete inputs *)

Example bool_is_an_int : isinstance (VBool true) [int_cls] = true.
Proof. reflexivity. Qed.

Example start_end_pattern_matches :
  re_match PatStartEnd "" = true ∧ re_match PatStartEnd newline = true ∧
  re_match PatStartEnd "loss" = false.
Proof. by vm_compute. Qed.

Example default_output_accepts_nothing :
  Logger.accepts (LogOutput_default 0 LogOutput_cls) "" (VStr "text") = false.
Proof. reflexivity. Qed.

Example scoped_prefix_restores_stack :
  let r := Logger.prefix "a" (Logger.prefix "b" (Logger.log (VStr "text")))
             (state_of (Logger.add_output (CsvOutput.as_object 0) Logger.__init__)) in
  record_calls (trace_of r) = [(CsvOutput.as_object 0, "", VStr "text", "ab")] ∧
  Logger._prefixes (state_of r) = [] ∧ Logger._prefix_str (state_of r) = "".
Proof. by vm_compute. Qed.

Section csv_example.
Context `{PyProcess}.

Example csv_two_cycles :
  (CsvOutput.run
     [CsvOutput.Call_record "x" (VInt 1) ""; CsvOutput.Call_record "y" (VStr "z") "";
      CsvOutput.Call_dump None; CsvOutput.Call_dump None;
      CsvOutput.Call_record "y" (VObject float_cls) ""; CsvOutput.Call_record "x" VNone "";
      CsvOutput.Call_dump None]
     CsvOutput.__init__).2
  = [CsvOutput.EWriteHeader ["y"; "x"]; CsvOutput.EWriteRow [VStr "z"; VInt 1];
     CsvOutput.EFlush;
     CsvOutput.EWriteRow [VObject float_cls; VStr "None"]; CsvOutput.EFlush].
Proof. by vm_compute. Qed.
End csv_example.

(** ** Relations that compose along a computation *)

Section triples.
Context {St Ev : Type}.
Variable Q : St → St → list Ev → Prop.
Hypothesis Q_refl : ∀ s, Q s s [].
Hypothesis Q_trans : ∀ s s1 s2 t1 t2, Q s s1 t1 → Q s1 s2 t2 → Q s s2 (t1 ++ t2).

Lemma sat_ret {A} (a : A) : satisfies Q (ret a).
Proof. intros s. apply Q_refl. Qed.

Lemma sat_get : satisfies Q get.
Proof. intros s. apply Q_refl. Qed.

Lemma sat_raise {A} e : satisfies Q (raise (A:=A) e).
Proof. intros s. apply Q_refl. Qed.

Lemma sat_modify f : (∀ s, Q s (f s) []) → satisfies Q (modify f).
Proof. intros Hf s. apply Hf. Qed.

Lemma sat_emit e : (∀ s, Q s s [e]) → satisfies Q (emit e).
Proof. intros He s. apply He. Qed.

Lemma sat_bind {A B} (m : M St Ev A) (k : A → M St Ev B) :
  satisfies Q m → (∀ a, satisfies Q (k a)) → satisfies Q (bind m k).
Proof.
  intros Hm Hk s. specialize (Hm s). unfold satisfies, state_of, trace_of, bind in *.
  destruct (m s) as [[[a|e] s1] t1]; cbn in *; [|done].
  specialize (Hk a s1). destruct (k a s1) as [[r s2] t2]; cbn in *.
  by eapply Q_trans.
Qed.

Lemma sat_when (cond : bool) body : satisfies Q body → satisfies Q (when cond body).
Proof. destruct cond; [done|]. intros _. apply sat_ret. Qed.

Lemma sat_for_each {A} (xs : list A) body :
  (∀ x, satisfies Q (body x)) → satisfies Q (for_each xs body).
Proof.
  intros Hbody. induction xs as [|x xs IH]; cbn; [apply sat_ret|].
  apply sat_bind; [apply Hbody | intros _; apply IH].
Qed.

Lemma sat_try_finally {A} (body : M St Ev A) cleanup :
  satisfies Q body → satisfies Q cleanup → satisfies Q (try_finally body cleanup).
Proof.
  intros Hb Hc s. specialize (Hb s). unfold satisfies, state_of, trace_of, try_finally in *.
  destruct (body s) as [[r s1] t1]; cbn in *.
  specialize (Hc s1). destruct (cleanup s1) as [[[[]|e] s2] t2]; cbn in *;
    by eapply Q_trans.
Qed.
End triples.

(** One step of a proof that walks through a method body *)
Ltac sat_step R T :=
  first
    [ apply (sat_get _ R) | apply (sat_ret _ R) | apply (sat_raise _ R)
    | apply (sat_when _ R) | apply (sat_for_each _ R T); intros ?
    | apply (sat_try_finally _ T)
    | apply (sat_bind _ T); [|intros ?]
    | match goal with
      | |- satisfies _ (if ?b then _ else _) => destruct b
      | |- satisfies _ (match ?o with Some _ => _ | None => _ end) => destruct o
      end ].

Section discipline_facts.
Context {St Ev : Type}.
Variable warned : St → gset string.
Variable disabled : St → bool.
Variable warning : Ev → option string.

Local Abbreviation post := (warn_post warned disabled warning).

Lemma warn_post_silent s s' t :
  warned s ⊆ warned s' → (disabled s = true → disabled s' = true) →
  warnings_of warning t = [] → post s s' t.
Proof.
  intros Hsub Hdis Ht. unfold warn_post. rewrite Ht.
  split_and!; [done | by auto | apply NoDup_nil_2 |].
  intros msg Hin. by apply elem_of_nil in Hin.
Qed.

Lemma warn_post_refl s : post s s [].
Proof. by apply warn_post_silent. Qed.

Lemma warn_post_trans s s1 s2 t1 t2 :
  post s s1 t1 → post s1 s2 t2 → post s s2 (t1 ++ t2).
Proof.
  intros (Hsub1 & Hdis1 & Hnd1 & Hin1) (Hsub2 & Hdis2 & Hnd2 & Hin2).
  unfold warn_post, warnings_of in *. rewrite omap_app.
  split; [by etrans|]. split; [|split].
  - intros Hd. destruct (Hdis1 Hd) as [Hd1 ->]. destruct (Hdis2 Hd1) as [Hd2 ->]. done.
  - apply NoDup_app. split; [done|]. split; [|done].
    intros msg Hm1 Hm2. apply Hin1 in Hm1. apply Hin2 in Hm2. tauto.
  - intros msg [Hm|Hm]%elem_of_app.
    + destruct (Hin1 _ Hm) as [Hnew Hold]. split; [done | by apply Hsub2].
    + destruct (Hin2 _ Hm) as [Hnew Hold]. split; [|done].
      intros Hs. apply Hnew. by apply Hsub1.
Qed.

Lemma warn_post_quiet f s : quiet warned disabled f → post s (f s) [].
Proof. intros Hq. destruct (Hq s). by apply warn_post_silent. Qed.

Lemma warn_post_other e s : warning e = None → post s s [e].
Proof.
  intros He. apply warn_post_silent; [done..|]. unfold warnings_of. cbn. by rewrite He.
Qed.
End discipline_facts.

(** ** The Logger: warnings and dispatch *)

Section logger_dispatch.
Import Logger.

Lemma warn_run msg s :
  _warn msg s = (Returns msg, logger_marked msg s, logger_emitted msg s).
Proof.
  unfold _warn, logger_emitted, bind, get, when, modify, emit, ret. cbn.
  destruct (_disable_warnings s); cbn; [done|].
  by destruct (bool_decide (msg ∈ _warned_once s)).
Qed.

Lemma logkv_loop_run outputs key value logged s :
  logkv_loop outputs key value logged s =
    (Returns (logged || existsb (λ o, accepts o key value) outputs), s,
     (λ o, ERecord o key value (_prefix_str s)) <$> accepting outputs key value).
Proof.
  revert logged. induction outputs as [|o outputs IH]; intros logged; cbn.
  - by rewrite orb_false_r.
  - unfold accepting in *. cbn. fold (accepts o key value).
    destruct (accepts o key value) eqn:Hacc; cbn.
    + rewrite IH. cbn. by rewrite orb_true_r.
    + by rewrite IH.
Qed.

Lemma record_calls_emitted msg s : record_calls (logger_emitted msg s) = [].
Proof.
  unfold logger_emitted. destruct (_disable_warnings s); [done|].
  by destruct (bool_decide _).
Qed.

Lemma record_calls_records (outs : list pyobject) key value p :
  record_calls ((λ o, ERecord o key value p) <$> outs) = (λ o, (o, key, value, p)) <$> outs.
Proof. induction outs as [|o outs IH]; cbn; [done|]. by f_equal. Qed.
End logger_dispatch.

Section logger_logkv.
Import Logger.
Local Arguments _warn : simpl never.
Local Arguments logkv_loop : simpl never.

(** [logkv] in closed form: the state and the trace it leaves *)
Lemma logkv_run key value s :
  let s1 := if bool_decide (_outputs s = []) then logger_marked no_outputs_msg s else s in
  let logged := existsb (λ o, accepts o key value) (_outputs s) in
  logkv key value s =
    (Returns (),
     (if logged then s1 else logger_marked (not_accepted_msg value) s1),
     (if bool_decide (_outputs s = []) then logger_emitted no_outputs_msg s else []) ++
     ((λ o, ERecord o key value (_prefix_str s)) <$> accepting (_outputs s) key value) ++
     (if logged then [] else logger_emitted (not_accepted_msg value) s1)).
Proof.
  cbn. unfold logkv, bind, get, when, ret.
  destruct (bool_decide (_outputs s = [])); cbn;
    rewrite ?warn_run; cbn; rewrite logkv_loop_run; cbn;
    destruct (existsb _ _); cbn; rewrite ?warn_run; cbn;
    by rewrite ?app_nil_r.
Qed.
End logger_logkv.

Section logger_claims_dispatch.
Import Logger.

Lemma record_calls_logkv key value s :
  record_calls (trace_of (logkv key value s)) =
    (λ o, (o, key, value, _prefix_str s)) <$> accepting (_outputs s) key value.
Proof.
  rewrite logkv_run. unfold trace_of, record_calls. cbn.
  rewrite !omap_app. fold (record_calls).
  rewrite record_calls_records.
  assert (∀ (b : bool) msg s', record_calls (if b then logger_emitted msg s' else []) = [])
    as Hwarn1 by (intros [] ??; [apply record_calls_emitted | done]).
  assert (∀ (b : bool) msg s', record_calls (if b then [] else logger_emitted msg s') = [])
    as Hwarn2 by (intros [] ??; [done | apply record_calls_emitted]).
  unfold record_calls in Hwarn1, Hwarn2. rewrite Hwarn1, Hwarn2.
  by rewrite app_nil_r.
Qed.

Lemma elem_of_accepting o outputs key value :
  o ∈ accepting outputs key value ↔
  o ∈ outputs ∧ isinstance value (types_accepted o) = true ∧
  re_match (keys_accepted o) key = true.
Proof.
  unfold accepting. rewrite !list_elem_of_In, filter_In, andb_true_iff. tauto.
Qed.

(** C1: [logkv key value] calls [record(key, value, prefix=_prefix_str)] on
    the registered outputs that pass both tests, in registration order and
    once per registration, and on no other; an output gets the call if and
    only if it is registered, [value] is an instance of one of its
    [types_accepted] and its [keys_accepted] pattern matches [key]. *)
Theorem logkv_dispatch (s : state) (key : string) (value : pyvalue) :
  record_calls (trace_of (logkv key value s)) =
    (λ o, (o, key, value, _prefix_str s)) <$> accepting (_outputs s) key value
  ∧ ∀ output k v prefix,
      (output, k, v, prefix) ∈ record_calls (trace_of (logkv key value s)) ↔
      output ∈ _outputs s ∧ k = key ∧ v = value ∧ prefix = _prefix_str s ∧
      isinstance value (types_accepted output) = true ∧
      re_match (keys_accepted output) key = true.
Proof.
  split; [apply record_calls_logkv|].
  intros output k v prefix. rewrite record_calls_logkv, list_elem_of_fmap.
  split.
  - intros (o & Heq & Hin). injection Heq as -> -> -> ->.
    apply elem_of_accepting in Hin. tauto.
  - intros (Hin & -> & -> & -> & Hty & Hkey). exists output. split; [done|].
    by apply elem_of_accepting.
Qed.
End logger_claims_dispatch.

(** ** At most one emission per message *)

(** How many times a message occurs among the warnings of a trace *)
Lemma NoDup_occurs_once (msg : string) (l : list string) :
  NoDup l → (length (List.filter (λ m, bool_decide (m = msg)) l) ≤ 1)%nat.
Proof.
  induction 1 as [|m l Hnotin Hnd IH]; cbn; [lia|].
  case_bool_decide as Heq; cbn; [|done]. subst m.
  assert (List.filter (λ m, bool_decide (m = msg)) l = []) as ->; [|cbn; lia].
  clear IH Hnd. induction l as [|m l IH]; cbn; [done|].
  apply not_elem_of_cons in Hnotin as [Hne Hnotin].
  case_bool_decide; [congruence | by apply IH].
Qed.

Section logger_warnings.
Import Logger.

Local Abbreviation lpost := (warn_post _warned_once _disable_warnings logger_warning).

Lemma lrefl s : lpost s s [].
Proof. apply warn_post_refl. Qed.

Lemma ltrans s s1 s2 t1 t2 : lpost s s1 t1 → lpost s1 s2 t2 → lpost s s2 (t1 ++ t2).
Proof. apply warn_post_trans. Qed.

Lemma safe_warn msg : satisfies lpost (_warn msg).
Proof.
  intros s. rewrite warn_run. unfold state_of, trace_of, warn_post, warnings_of. cbn.
  unfold logger_emitted. split_and!.
  - apply union_subseteq_l.
  - by intros ->.
  - destruct (_disable_warnings s); [apply NoDup_nil_2|].
    case_bool_decide; cbn; [apply NoDup_nil_2 | apply NoDup_singleton].
  - intros m. destruct (_disable_warnings s); [by intros ?%elem_of_nil|].
    case_bool_decide as Hin; cbn; [by intros ?%elem_of_nil|].
    intros ->%list_elem_of_singleton. split; [done|].
    apply elem_of_union_r. by apply elem_of_singleton.
Qed.

Lemma safe_logkv_loop outputs key value logged :
  satisfies lpost (logkv_loop outputs key value logged).
Proof.
  intros s. rewrite logkv_loop_run. apply warn_post_silent; [done..|].
  unfold warnings_of. by induction (accepting outputs key value).
Qed.

Lemma safe_logkv key value : satisfies lpost (logkv key value).
Proof.
  unfold logkv.
  repeat first [ apply safe_warn | apply safe_logkv_loop | sat_step lrefl ltrans ].
Qed.

Lemma safe_perform c : satisfies lpost (perform c).
Proof.
  destruct c; cbn [perform];
    unfold log, add_output, remove_all, remove_output_type, reset_output, has_output_type,
      dump_output_type, dump_all, push_prefix, pop_prefix, disable_warnings, add_output;
    repeat first
      [ apply safe_logkv
      | apply sat_modify; intros ?; by apply warn_post_quiet
      | apply sat_emit; intros ?; by apply warn_post_other
      | sat_step lrefl ltrans ].
Qed.

Lemma run_post calls s : lpost s (run calls s).1 (run calls s).2.
Proof.
  revert s. induction calls as [|c calls IH]; intros s; cbn; [apply warn_post_refl|].
  pose proof (safe_perform c s) as Hc. unfold state_of, trace_of in Hc.
  destruct (perform c s) as [[r s1] t1]. cbn in Hc.
  specialize (IH s1). destruct (run calls s1) as [s2 t2]. cbn in *.
  by eapply warn_post_trans.
Qed.
End logger_warnings.

Section logger_claims_warnings.
Import Logger.

(** C7: on any Logger instance and along any sequence of calls, a given
    message text is handed to [warnings.warn] at most once; once
    [disable_warnings] has been called the flag stays set through every later
    call and nothing is emitted any more.  A value that no output accepts,
    logged a hundred times in a row, gives one warning. *)
Theorem logger_warns_once (s : state) (calls : list call) (msg : string) :
  (length (List.filter (λ m, bool_decide (m = msg))
             (warnings_of logger_warning (run calls s).2)) ≤ 1)%nat
  ∧ (let s0 := state_of (disable_warnings s) in
     _disable_warnings (run calls s0).1 = true ∧
     warnings_of logger_warning (run calls s0).2 = [])
  ∧ warnings_of logger_warning
      (run (replicate 100 (Call_log (VTabular 7)))
           (state_of (add_output (CsvOutput.as_object 0) __init__))).2
    = ["Log data of type TabularInput was not accepted by any output"].
Proof.
  split_and!.
  - apply NoDup_occurs_once. apply (run_post calls s).
  - cbn. by apply (run_post calls (set_disable_warnings true s)).
  - by vm_compute.
Qed.

Lemma no_outputs_msg_distinct value : no_outputs_msg ≠ not_accepted_msg value.
Proof. unfold no_outputs_msg, not_accepted_msg. cbn. discriminate. Qed.

(** C10: on a Logger without outputs, [logkv] (and [log]) returns normally,
    calls no sink, and goes through [_warn] twice, first with the no-outputs
    message and then with the message naming the type of the value; the two
    texts differ and each is emitted unless warnings are disabled or the text
    is already in the de-duplication set, which holds both afterwards.  On a
    fresh Logger both are emitted, and a second call emits nothing. *)
Theorem logkv_without_outputs (s : state) (key : string) (value : pyvalue) :
  _outputs s = [] →
  logkv key value s =
    (Returns (),
     logger_marked (not_accepted_msg value) (logger_marked no_outputs_msg s),
     logger_emitted no_outputs_msg s ++
     logger_emitted (not_accepted_msg value) (logger_marked no_outputs_msg s))
  ∧ log value s = logkv "" value s
  ∧ no_outputs_msg ≠ not_accepted_msg value
  ∧ trace_of (logkv key value __init__) = [EWarn no_outputs_msg; EWarn (not_accepted_msg value)]
  ∧ trace_of (logkv key value (state_of (logkv key value __init__))) = [].
Proof.
  intros Hnone. pose proof (no_outputs_msg_distinct value) as Hne.
  assert (∀ s', _outputs s' = [] →
    logkv key value s' =
      (Returns (),
       logger_marked (not_accepted_msg value) (logger_marked no_outputs_msg s'),
       logger_emitted no_outputs_msg s' ++
       logger_emitted (not_accepted_msg value) (logger_marked no_outputs_msg s'))) as Hrun.
  { intros s' Hs'. rewrite logkv_run. cbn. rewrite Hs'. done. }
  split_and!; [by apply Hrun | done | done | |].
  - rewrite (Hrun __init__ eq_refl). unfold trace_of, logger_emitted. cbn.
    rewrite !bool_decide_eq_false_2; [done|..].
    + intros [Hin|Hin]%elem_of_union; [by apply not_elem_of_empty in Hin|].
      apply elem_of_singleton in Hin. by apply Hne.
    + apply not_elem_of_empty.
  - rewrite (Hrun __init__ eq_refl). unfold state_of. cbn [fst snd].
    rewrite Hrun by done. unfold trace_of, logger_emitted. cbn.
    rewrite !bool_decide_eq_true_2; [done|..];
      repeat first [ by apply elem_of_union_r, elem_of_singleton | apply elem_of_union_l ].
Qed.

Lemma logkv_without_outputs_witness :
  trace_of (logkv "loss" (VInt 3) __init__) =
    [EWarn "No outputs have been added to the logger.";
     EWarn "Log data of type int was not accepted by any output"].
Proof.
  destruct (logkv_without_outputs __init__ "loss" (VInt 3) eq_refl) as (_ & _ & _ & Hfresh & _).
  exact Hfresh.
Defined.
End logger_claims_warnings.

(** ** The Logger: the prefix stack *)

Section logger_prefix.
Import Logger.

Lemma append_empty_r (x : string) : x +:+ "" = x.
Proof.
  induction x as [|c x IH]; [done|].
  change (String c (x +:+ "") = String c x). by rewrite IH.
Qed.

Lemma str_join_empty (parts : list string) : str_join "" parts = concat_all parts.
Proof.
  induction parts as [|x [|y rest] IH]; [done| |].
  - change (x = x +:+ ""). by rewrite append_empty_r.
  - change (str_join "" (x :: y :: rest)) with (x +:+ "" +:+ str_join "" (y :: rest)).
    rewrite IH. done.
Qed.

Lemma del_last_snoc {A} (l : list A) (x : A) : del_last (l ++ [x]) = Some l.
Proof.
  induction l as [|y l IH]; [done|].
  change (del_last ((y :: l) ++ [x])) with
    (match l ++ [x] with [] => Some [] | _ :: _ => cons y <$> del_last (l ++ [x]) end).
  rewrite IH. by destruct l.
Qed.

Lemma push_prefix_run p s :
  push_prefix p s =
    (Returns (),
     State (_outputs s) (_prefixes s ++ [p]) (concat_all (_prefixes s ++ [p]))
           (_warned_once s) (_disable_warnings s),
     []).
Proof. unfold push_prefix. cbn. by rewrite str_join_empty. Qed.

Lemma pop_prefix_run s :
  pop_prefix s =
    match del_last (_prefixes s) with
    | Some ps =>
        (Returns (),
         State (_outputs s) ps (concat_all ps) (_warned_once s) (_disable_warnings s), [])
    | None => (Raises (IndexError "list assignment index out of range"), s, [])
    end.
Proof.
  unfold pop_prefix, bind, get. cbn.
  destruct (del_last (_prefixes s)) as [ps|]; cbn; [|done]. by rewrite str_join_empty.
Qed.

Lemma prefix_frame_refl s : prefix_frame s s [].
Proof. done. Qed.

Lemma prefix_frame_trans s s1 s2 t1 t2 :
  prefix_frame s s1 t1 → prefix_frame s1 s2 t2 → prefix_frame s s2 (t1 ++ t2).
Proof. intros [H1 H2] [H3 H4]. split; congruence. Qed.

Lemma perform_prefix_inv c s : prefix_inv s → prefix_inv (state_of (perform c s)).
Proof.
  intros Hinv.
  assert (∀ m : L unit, satisfies prefix_frame m → prefix_inv (state_of (m s))) as Hframe.
  { intros m Hm. destruct (Hm s) as [H1 H2]. unfold prefix_inv in *. congruence. }
  destruct c; cbn [perform];
    try solve [apply Hframe;
         unfold logkv, log, logkv, _warn, add_output, remove_all, remove_output_type,
           reset_output, has_output_type, dump_output_type, dump_all, disable_warnings,
           add_output;
         repeat first
           [ apply sat_modify; intros ?; done
           | apply sat_emit; intros ?; done
           | sat_step prefix_frame_refl prefix_frame_trans
           | match goal with
             | |- satisfies _ (logkv_loop ?outs _ _ _) =>
                 intros ?; rewrite logkv_loop_run; done
             end ]].
  - rewrite push_prefix_run. done.
  - rewrite pop_prefix_run. by destruct (del_last (_prefixes s)).
Qed.

Lemma run_prefix_inv calls s : prefix_inv s → prefix_inv (run calls s).1.
Proof.
  revert s. induction calls as [|c calls IH]; intros s Hinv; cbn; [done|].
  pose proof (perform_prefix_inv c s Hinv) as Hc. unfold state_of in Hc.
  destruct (perform c s) as [[r s1] t1]. cbn in Hc.
  specialize (IH s1 Hc). by destruct (run calls s1) as [s2 t2].
Qed.

(** C6: after every [push_prefix] and every [pop_prefix] that returns, and
    hence in every state a fresh Logger reaches, [_prefix_str] is the
    concatenation of [_prefixes] from the bottom of the stack; pushing ['a']
    and ['b'] and popping once leaves ['a'], popping again leaves the empty
    string, and a third [pop_prefix] raises IndexError and changes nothing. *)
Theorem prefix_str_follows_stack (s : state) (calls : list call) (p : string)
    (ps : list string) :
  (let s1 := state_of (push_prefix p s) in
   result_of (push_prefix p s) = Returns () ∧
   _prefixes s1 = _prefixes s ++ [p] ∧ _prefix_str s1 = concat_all (_prefixes s1))
  ∧ (let s1 := state_of (pop_prefix (set_prefixes (λ _, ps ++ [p]) s)) in
     result_of (pop_prefix (set_prefixes (λ _, ps ++ [p]) s)) = Returns () ∧
     _prefixes s1 = ps ∧ _prefix_str s1 = concat_all (_prefixes s1))
  ∧ _prefix_str (run calls __init__).1 = concat_all (_prefixes (run calls __init__).1)
  ∧ (let s3 := (run [Call_push_prefix "a"; Call_push_prefix "b"; Call_pop_prefix] __init__).1 in
     _prefix_str s3 = "a" ∧
     _prefix_str (state_of (pop_prefix s3)) = "" ∧
     result_of (pop_prefix s3) = Returns () ∧
     pop_prefix (state_of (pop_prefix s3)) =
       (Raises (IndexError "list assignment index out of range"),
        state_of (pop_prefix s3), [])).
Proof.
  split_and!.
  - rewrite push_prefix_run. done.
  - rewrite pop_prefix_run. cbn. rewrite del_last_snoc. done.
  - by apply (run_prefix_inv calls __init__).
  - by vm_compute.
Qed.
End logger_prefix.

(** ** The Logger: registering and removing outputs *)

Section logger_outputs.
Import Logger.

Lemma issubclass_refl c : issubclass c c = true.
Proof. unfold issubclass, cls_mro. apply bool_decide_eq_true_2, list_elem_of_here. Qed.

Lemma outputs_not_of_filter outputs t :
  outputs_not_of outputs t = List.filter (λ o, negb (isinstance_obj o t)) outputs.
Proof.
  induction outputs as [|o outputs IH]; cbn; [done|].
  destruct (isinstance_obj o t); cbn; by rewrite IH.
Qed.

Lemma elem_of_outputs_not_of o outputs t :
  o ∈ outputs_not_of outputs t ↔ o ∈ outputs ∧ isinstance_obj o t = false.
Proof.
  rewrite outputs_not_of_filter, !list_elem_of_In, filter_In, negb_true_iff. tauto.
Qed.

Lemma outputs_not_of_sublist outputs t : sublist (outputs_not_of outputs t) outputs.
Proof.
  induction outputs as [|o outputs IH]; cbn; [done|].
  destruct (isinstance_obj o t); cbn; by constructor.
Qed.

Lemma outputs_not_of_app outputs1 outputs2 t :
  outputs_not_of (outputs1 ++ outputs2) t =
    outputs_not_of outputs1 t ++ outputs_not_of outputs2 t.
Proof.
  induction outputs1 as [|o outputs1 IH]; cbn; [done|].
  destruct (isinstance_obj o t); cbn; by rewrite IH.
Qed.

Lemma outputs_not_of_idem outputs t :
  outputs_not_of (outputs_not_of outputs t) t = outputs_not_of outputs t.
Proof.
  induction outputs as [|o outputs IH]; cbn; [done|].
  destruct (isinstance_obj o t) eqn:Hinst; cbn; [done|]. by rewrite Hinst, IH.
Qed.

Lemma instances_of_outputs_not_of outputs t :
  List.filter (λ o, isinstance_obj o t) (outputs_not_of outputs t) = [].
Proof.
  induction outputs as [|o outputs IH]; cbn; [done|].
  destruct (isinstance_obj o t) eqn:Hinst; cbn; [done|]. by rewrite Hinst.
Qed.

Lemma scan_output_type_existsb outputs t :
  scan_output_type outputs t = existsb (λ o, isinstance_obj o t) outputs.
Proof.
  induction outputs as [|o outputs IH]; cbn; [done|].
  destruct (isinstance_obj o t); cbn; [done|]. exact IH.
Qed.

Lemma scan_outputs_not_of outputs t : scan_output_type (outputs_not_of outputs t) t = false.
Proof.
  induction outputs as [|o outputs IH]; cbn; [done|].
  destruct (isinstance_obj o t) eqn:Hinst; cbn; [done|]. by rewrite Hinst.
Qed.

Lemma add_output_run output s :
  isinstance_obj output type_cls = false →
  isinstance_obj output LogOutput_cls = true →
  add_output output s = (Returns (), set_outputs (λ outs, outs ++ [output]) s, []).
Proof. intros Hty Hlog. unfold add_output. by rewrite Hty, Hlog. Qed.

(** C5: [add_output] raises ValueError when the argument is a type (an
    instance of [type]) or is not an instance of [LogOutput], and then leaves
    the Logger as it was and calls nothing; any other argument is appended
    after the outputs already registered, whether or not it is among them, so
    adding it twice registers it twice. *)
Theorem add_output_checks (s : state) (output : pyobject) :
  (isinstance_obj output type_cls = true ∨ isinstance_obj output LogOutput_cls = false →
   ∃ msg, add_output output s = (Raises (ValueError msg), s, []))
  ∧ (isinstance_obj output type_cls = false ∧ isinstance_obj output LogOutput_cls = true →
     add_output output s = (Returns (), set_outputs (λ outs, outs ++ [output]) s, []) ∧
     _outputs (state_of (add_output output s)) = _outputs s ++ [output] ∧
     _outputs (state_of (add_output output (state_of (add_output output s)))) =
       _outputs s ++ [output; output]).
Proof.
  split.
  - intros Hbad. unfold add_output.
    destruct (isinstance_obj output type_cls); [by eexists|].
    destruct Hbad as [?| ->]; [done|]. by eexists.
  - intros [Hty Hlog]. rewrite !add_output_run by done. cbn.
    split_and!; [done..|]. by rewrite <- app_assoc.
Qed.

Lemma add_output_checks_witness :
  (∃ msg, add_output (PyObject 1 ABCMeta_cls [] PatStartEnd) __init__
          = (Raises (ValueError msg), __init__, []))
  ∧ (∃ msg, add_output (PyObject 2 str_cls [] PatStartEnd) __init__
            = (Raises (ValueError msg), __init__, []))
  ∧ _outputs (state_of (add_output (CsvOutput.as_object 3) __init__)) = [CsvOutput.as_object 3].
Proof.
  split_and!.
  - apply (add_output_checks __init__ (PyObject 1 ABCMeta_cls [] PatStartEnd)).
    left. reflexivity.
  - apply (add_output_checks __init__ (PyObject 2 str_cls [] PatStartEnd)).
    right. reflexivity.
  - apply (add_output_checks __init__ (CsvOutput.as_object 3)).
    split; reflexivity.
Defined.

(** C9: [remove_output_type t] keeps exactly the registered outputs that are
    not instances of [t], in their order, touches nothing else and calls
    nothing; so after adding an output [S] and removing [type(S)],
    [has_output_type(type(S))] returns False, where it returned True before
    the removal. *)
Theorem remove_output_type_removes_instances (s : state) (t : pyclass) (S : pyobject) :
  isinstance_obj S type_cls = false →
  isinstance_obj S LogOutput_cls = true →
  remove_output_type t s =
    (Returns (),
     set_outputs (λ outs, List.filter (λ o, negb (isinstance_obj o t)) outs) s, [])
  ∧ (∀ o, o ∈ _outputs (state_of (remove_output_type t s)) ↔
          o ∈ _outputs s ∧ isinstance_obj o t = false)
  ∧ sublist (_outputs (state_of (remove_output_type t s))) (_outputs s)
  ∧ result_of ((add_output S >> has_output_type (obj_class S)) s) = Returns true
  ∧ result_of ((add_output S >> remove_output_type (obj_class S) >>
                has_output_type (obj_class S)) s) = Returns false.
Proof.
  intros Hty Hlog.
  assert (remove_output_type t s =
    (Returns (),
     set_outputs (λ outs, List.filter (λ o, negb (isinstance_obj o t)) outs) s, [])) as Hrun.
  { unfold remove_output_type, modify, set_outputs. by rewrite outputs_not_of_filter. }
  split_and!.
  - exact Hrun.
  - intros o. rewrite Hrun. cbn.
    by rewrite <- outputs_not_of_filter, elem_of_outputs_not_of.
  - rewrite Hrun. cbn. rewrite <- outputs_not_of_filter. apply outputs_not_of_sublist.
  - unfold bind. rewrite add_output_run by done. cbn.
    rewrite scan_output_type_existsb, existsb_app. cbn.
    unfold isinstance_obj at 2. by rewrite issubclass_refl, orb_true_r.
  - unfold bind. rewrite add_output_run by done. cbn.
    by rewrite scan_outputs_not_of.
Qed.

Lemma remove_output_type_removes_instances_witness :
  result_of ((add_output (CsvOutput.as_object 0) >> remove_output_type CsvOutput_cls >>
              has_output_type CsvOutput_cls) __init__) = Returns false.
Proof.
  apply (remove_output_type_removes_instances __init__ CsvOutput_cls (CsvOutput.as_object 0));
    reflexivity.
Defined.

(** C8: for an output instance, [reset_output] returns normally and leaves
    exactly one registered instance of the class of [output], namely [output]
    itself, as the last registered output; calling it again with the same
    instance changes nothing. *)
Theorem reset_output_leaves_one (s : state) (output : pyobject) :
  isinstance_obj output type_cls = false →
  isinstance_obj output LogOutput_cls = true →
  let s' := state_of (reset_output output s) in
  reset_output output s = (Returns (), s', [])
  ∧ List.filter (λ o, isinstance_obj o (obj_class output)) (_outputs s') = [output]
  ∧ last (_outputs s') = Some output
  ∧ reset_output output s' = (Returns (), s', []).
Proof.
  intros Hty Hlog.
  assert (∀ s0, reset_output output s0 =
    (Returns (),
     set_outputs (λ outs, outputs_not_of outs (obj_class output) ++ [output]) s0, [])) as Hrun.
  { intros s0. unfold reset_output, bind, remove_output_type, modify.
    by rewrite add_output_run. }
  assert (isinstance_obj output (obj_class output) = true) as Hself
    by apply issubclass_refl.
  intros s'. subst s'. rewrite !Hrun. unfold state_of. cbn. split_and!.
  - done.
  - rewrite List.filter_app, instances_of_outputs_not_of. cbn. by rewrite Hself.
  - apply last_snoc.
  - unfold set_outputs. cbn. do 3 f_equal.
    rewrite outputs_not_of_app, outputs_not_of_idem. cbn. rewrite Hself. cbn.
    by rewrite app_nil_r.
Qed.

Lemma reset_output_leaves_one_witness :
  List.filter (λ o, isinstance_obj o CsvOutput_cls)
    (_outputs (state_of (reset_output (CsvOutput.as_object 2)
       (state_of (add_output (CsvOutput.as_object 1)
          (state_of (add_output (CsvOutput.as_object 0) __init__)))))))
  = [CsvOutput.as_object 2].
Proof.
  exact (proj1 (proj2 (reset_output_leaves_one
           (state_of (add_output (CsvOutput.as_object 1)
              (state_of (add_output (CsvOutput.as_object 0) __init__))))
           (CsvOutput.as_object 2) eq_refl eq_refl))).
Defined.
End logger_outputs.

(** ** The CSV sink *)

Section csv_facts.
Import CsvOutput.
Context `{PyProcess}.
Local Arguments _warn : simpl never.

Lemma csv_warn_run msg s : _warn msg s = (Returns msg, csv_marked msg s, csv_emitted msg s).
Proof.
  unfold _warn, csv_emitted, bind, get, when, modify, emit, ret. cbn.
  destruct (_disable_warnings s); cbn; [done|].
  by destruct (bool_decide (msg ∈ _warned_once s)).
Qed.

Local Abbreviation cpost := (warn_post _warned_once _disable_warnings csv_warning).

Lemma crefl s : cpost s s [].
Proof. apply warn_post_refl. Qed.

Lemma ctrans s s1 s2 t1 t2 : cpost s s1 t1 → cpost s1 s2 t2 → cpost s s2 (t1 ++ t2).
Proof. apply warn_post_trans. Qed.

Lemma csv_safe_warn msg : satisfies cpost (_warn msg).
Proof.
  intros s. rewrite csv_warn_run. unfold state_of, trace_of, warn_post, warnings_of. cbn.
  unfold csv_emitted. split_and!.
  - apply union_subseteq_l.
  - by intros ->.
  - destruct (_disable_warnings s); [apply NoDup_nil_2|].
    case_bool_decide; cbn; [apply NoDup_nil_2 | apply NoDup_singleton].
  - intros m. destruct (_disable_warnings s); [by intros ?%elem_of_nil|].
    case_bool_decide as Hin; cbn; [by intros ?%elem_of_nil|].
    intros ->%list_elem_of_singleton. split; [done|].
    apply elem_of_union_r. by apply elem_of_singleton.
Qed.

Lemma csv_safe_perform c : satisfies cpost (perform c).
Proof.
  destruct c; cbn [perform]; unfold record, dump, disable_warnings, writeheader, writerow;
    repeat first
      [ apply csv_safe_warn
      | apply sat_modify; intros ?; by apply warn_post_quiet
      | apply sat_emit; intros ?; by apply warn_post_other
      | sat_step crefl ctrans ].
Qed.

Lemma csv_run_post calls s : cpost s (run calls s).1 (run calls s).2.
Proof.
  revert s. induction calls as [|c calls IH]; intros s; cbn; [apply warn_post_refl|].
  pose proof (csv_safe_perform c s) as Hc. unfold state_of, trace_of in Hc.
  destruct (perform c s) as [[r s1] t1]. cbn in Hc.
  specialize (IH s1). destruct (run calls s1) as [s2 t2]. cbn in *.
  by eapply warn_post_trans.
Qed.
End csv_facts.

Section csv_dump.
Import CsvOutput.
Context `{PyProcess}.
Local Arguments _warn : simpl never.

Lemma as_primitive_dict_keys t :
  dict_keys (TabularInput.as_primitive_dict t) = dict_keys (TabularInput._dict t).
Proof.
  unfold TabularInput.as_primitive_dict, dict_keys.
  rewrite <- list_fmap_compose. apply list_fmap_ext.
  intros i [k v] _. unfold compose.
  by match goal with |- context [if ?b then _ else _] => destruct b end.
Qed.

Lemma nonempty_keys t :
  TabularInput.empty t = false → dict_keys (TabularInput.as_primitive_dict t) ≠ [].
Proof.
  rewrite as_primitive_dict_keys. unfold TabularInput.empty, dict_keys.
  by destruct (TabularInput._dict t).
Qed.

(** [dump] on an empty TabularInput *)
Lemma dump_empty step s :
  TabularInput.empty (tabular s) = true → dump step s = (Returns (), s, []).
Proof. intros Hempty. unfold dump, bind, get. cbn. by rewrite Hempty. Qed.

(** [dump] in closed form on a TabularInput with keys *)
Lemma dump_run step s :
  csv_inv s → TabularInput.empty (tabular s) = false →
  let to_csv := TabularInput.as_primitive_dict (tabular s) in
  let keys := dict_keyset to_csv in
  let fieldnames := default keys (_fieldnames s) in
  let mismatch := negb (bool_decide (keys = fieldnames)) in
  let msg := inconsistent_msg fieldnames (dict_keys to_csv) in
  dump step s =
    (Returns (),
     State (Some (csv_writer fieldnames)) (Some fieldnames)
           (if mismatch then _warned_once s ∪ {[msg]} else _warned_once s)
           (_disable_warnings s) TabularInput.__init__,
     match _fieldnames s with Some _ => [] | None => [EWriteHeader (elements keys)] end ++
     (if mismatch then csv_emitted msg s else []) ++
     [EWriteRow (csv_row fieldnames to_csv); EFlush]).
Proof.
  intros Hinv Hnonempty. cbn zeta.
  pose proof (nonempty_keys _ Hnonempty) as Hkeys.
  unfold dump, bind at 1, get at 1. cbn. rewrite Hnonempty.
  rewrite (bool_decide_eq_false_2 _ Hkeys). cbn.
  unfold csv_inv in Hinv. destruct s as [w f warned disabled tab]. cbn in *.
  destruct w as [w|], f as [f|]; try done; cbn.
  - subst w. unfold bind, when, get, writerow, emit, modify, ret. cbn.
    case_bool_decide as Heq; cbn.
    + done.
    + rewrite csv_warn_run. cbn. by rewrite app_nil_r.
  - unfold bind, when, get, writerow, writeheader, emit, modify, ret. cbn.
    by rewrite bool_decide_eq_true_2.
Qed.

Lemma perform_csv_inv c s : csv_inv s → csv_inv (state_of (perform c s)).
Proof.
  intros Hinv. destruct c; cbn [perform]; [done| |done].
  destruct (TabularInput.empty (tabular s)) eqn:Hempty.
  - by rewrite dump_empty.
  - rewrite dump_run by done. done.
Qed.

Lemma run_csv_inv calls s : csv_inv s → csv_inv (run calls s).1.
Proof.
  revert s. induction calls as [|c calls IH]; intros s Hinv; cbn; [done|].
  pose proof (perform_csv_inv c s Hinv) as Hc. unfold state_of in Hc.
  destruct (perform c s) as [[r s1] t1]. cbn in Hc.
  specialize (IH s1 Hc). by destruct (run calls s1) as [s2 t2].
Qed.

(** Once set, the header set stays *)
Lemma perform_fieldnames c s fieldnames :
  csv_inv s → _fieldnames s = Some fieldnames →
  _fieldnames (state_of (perform c s)) = Some fieldnames.
Proof.
  intros Hinv Hf. destruct c; cbn [perform]; [done| |done].
  destruct (TabularInput.empty (tabular s)) eqn:Hempty.
  - by rewrite dump_empty.
  - rewrite dump_run by done. unfold state_of. cbn. by rewrite Hf.
Qed.

Lemma run_fieldnames calls s fieldnames :
  csv_inv s → _fieldnames s = Some fieldnames →
  _fieldnames (run calls s).1 = Some fieldnames.
Proof.
  revert s. induction calls as [|c calls IH]; intros s Hinv Hf; cbn; [done|].
  pose proof (perform_csv_inv c s Hinv) as Hc.
  pose proof (perform_fieldnames c s fieldnames Hinv Hf) as Hc'.
  unfold state_of in Hc, Hc'.
  destruct (perform c s) as [[r s1] t1]. cbn in Hc, Hc'.
  specialize (IH s1 Hc Hc'). by destruct (run calls s1) as [s2 t2].
Qed.
End csv_dump.

Section csv_rows.

Lemma dict_get_present {V} (d : pydict V) key (default : V) :
  key ∈ dict_keys d → (key, dict_get d key default) ∈ d.
Proof.
  unfold dict_keys. induction d as [|[k v] d IH]; cbn.
  - by intros ?%elem_of_nil.
  - case_bool_decide as Heq.
    + intros _. subst k. apply list_elem_of_here.
    + intros [?|Hin]%elem_of_cons; [done|]. apply list_elem_of_further. by apply IH.
Qed.

Lemma dict_get_absent {V} (d : pydict V) key (default : V) :
  key ∉ dict_keys d → dict_get d key default = default.
Proof.
  unfold dict_keys. induction d as [|[k v] d IH]; cbn; [done|].
  intros [Hne Hnotin]%not_elem_of_cons. case_bool_decide; [done|]. by apply IH.
Qed.

(** Column by column: a header name that is a key of the row holds the value
    recorded under it, any other header name holds the empty string *)
Lemma csv_row_cells (fieldnames : gset string) (rowdict : pydict pyvalue) :
  Forall2 (λ key cell, if decide (key ∈ dict_keyset rowdict)
                       then (key, cell) ∈ rowdict else cell = VStr "")
          (elements fieldnames) (csv_row fieldnames rowdict).
Proof.
  unfold csv_row. apply Forall2_fmap_r, Forall_Forall2_diag, Forall_forall.
  intros key _. unfold dict_keyset. case_decide as Hin.
  - apply dict_get_present. by apply elem_of_list_to_set in Hin.
  - apply dict_get_absent. intros Hin'. apply Hin. by apply elem_of_list_to_set.
Qed.
End csv_rows.

Section csv_acceptance.
Import CsvOutput.

(** C2: the usage notes of [logger.py] have the Logger keep the string
    ['test'] from a CsvOutput and send it the TabularInput.  The code does the
    opposite: with [types_accepted = (str, ) + np.ScalarType] and
    [keys_accepted = r'^'] a CsvOutput accepts every string under every key
    and no TabularInput, so on a Logger whose only output is a CsvOutput
    [log('test')] ends in [record('', 'test')] on the sink, and [log(tabular)]
    reaches no sink and ends in the not-accepted warning. *)
Theorem csv_output_takes_strings_not_tabular (id n : nat) (key x : string) :
  Logger.accepts (as_object id) key (VStr x) = true
  ∧ Logger.accepts (as_object id) key (VTabular n) = false
  ∧ (let s := state_of (Logger.add_output (as_object 0) Logger.__init__) in
     trace_of (Logger.log (VStr "test") s)
       = [Logger.ERecord (as_object 0) "" (VStr "test") ""]
     ∧ trace_of (Logger.log (VTabular 1) s)
       = [Logger.EWarn "Log data of type TabularInput was not accepted by any output"]).
Proof. split_and!; by vm_compute. Qed.
End csv_acceptance.

Section csv_claims.
Import CsvOutput.
Context `{PyProcess}.

Lemma quiet_warning (mismatch : bool) msg s :
  rows_written (if mismatch then csv_emitted msg s else []) = [] ∧
  EFlush ∉ (if mismatch then csv_emitted msg s else []).
Proof.
  unfold csv_emitted. destruct mismatch, (_disable_warnings s); cbn;
    try (split; [done | apply not_elem_of_nil]).
  case_bool_decide; cbn; (split; [done|]); [apply not_elem_of_nil|].
  intros Hin%list_elem_of_singleton. discriminate Hin.
Qed.

Lemma quiet_header {X} (fieldnames : option X) names :
  rows_written (match fieldnames with Some _ => [] | None => [EWriteHeader names] end) = [] ∧
  EFlush ∉ (match fieldnames with Some _ => [] | None => [EWriteHeader names] end).
Proof.
  destruct fieldnames; cbn; (split; [done|]); [apply not_elem_of_nil|].
  intros Hin%list_elem_of_singleton. discriminate Hin.
Qed.

Lemma rows_written_warning (mismatch : bool) msg s :
  rows_written (if mismatch then csv_emitted msg s else []) = [].
Proof. apply quiet_warning. Qed.

Lemma header_rows_warning (mismatch : bool) msg s :
  header_rows (if mismatch then csv_emitted msg s else []) = [].
Proof.
  unfold csv_emitted. destruct mismatch, (_disable_warnings s); try done.
  by destruct (bool_decide _).
Qed.

Lemma file_events_warning (mismatch : bool) msg s :
  file_events (if mismatch then csv_emitted msg s else []) = [].
Proof.
  unfold csv_emitted. destruct mismatch, (_disable_warnings s); try done.
  by destruct (bool_decide _).
Qed.

(** What one call does to the header: it writes none and fixes none, or it
    is the [dump] of a non-empty TabularInput on a sink without header, which
    writes it and fixes it. *)
Lemma perform_header c s :
  csv_inv s → _fieldnames s = None →
  (header_rows (trace_of (perform c s)) = [] ∧ _fieldnames (state_of (perform c s)) = None)
  ∨ (header_rows (trace_of (perform c s)) ≠ [] ∧
     is_Some (_fieldnames (state_of (perform c s)))).
Proof.
  intros Hinv Hf. destruct c; cbn [perform]; [by left| |by left].
  destruct (TabularInput.empty (tabular s)) eqn:Hempty.
  - left. by rewrite dump_empty.
  - right. rewrite dump_run by done. unfold state_of, trace_of. cbn [fst snd].
    rewrite Hf. by split.
Qed.

Lemma perform_no_header c s fieldnames :
  csv_inv s → _fieldnames s = Some fieldnames → header_rows (trace_of (perform c s)) = [].
Proof.
  intros Hinv Hf. destruct c; cbn [perform]; [done| |done].
  destruct (TabularInput.empty (tabular s)) eqn:Hempty.
  - by rewrite dump_empty.
  - rewrite dump_run by done. unfold trace_of. cbn [snd]. rewrite Hf.
    unfold header_rows. rewrite !omap_app. fold header_rows.
    by rewrite header_rows_warning.
Qed.

(** A sink has no header set exactly as long as it has written no header *)
Lemma run_header_history calls s :
  csv_inv s → _fieldnames s = None →
  (_fieldnames (run calls s).1 = None ↔ header_rows (run calls s).2 = []).
Proof.
  revert s. induction calls as [|c calls IH]; intros s Hinv Hf; cbn; [done|].
  pose proof (perform_csv_inv c s Hinv) as Hinv1.
  destruct (perform_header c s Hinv Hf) as [[Ht Hf1]|[Ht [f Hf1]]].
  - unfold state_of, trace_of in *. destruct (perform c s) as [[r s1] t1]. cbn in *.
    specialize (IH s1 Hinv1 Hf1). destruct (run calls s1) as [s2 t2]. cbn in *.
    unfold header_rows in *. by rewrite omap_app, Ht.
  - pose proof (run_fieldnames calls _ f Hinv1 Hf1) as Hlater.
    unfold state_of, trace_of in *. destruct (perform c s) as [[r s1] t1]. cbn in *.
    destruct (run calls s1) as [s2 t2]. cbn in *. rewrite Hlater.
    unfold header_rows in *. rewrite omap_app. split; [done|].
    intros [Hnone _]%app_eq_nil. done.
Qed.

(** C4, as the code has it: in every state a sink reaches, [dump] returns
    normally.  When the TabularInput is empty it writes nothing, does not
    flush and changes nothing.  Otherwise what it does is, in this order: the
    header row if the sink has none yet, which is the case exactly when no
    header was written before; possibly a warning; one data row; the flush of
    the file, which is the last thing it does. *)
Theorem dump_writes_one_row_and_flushes (calls : list call) (step : option Z) :
  let s := (run calls __init__).1 in
  let keys := dict_keyset (TabularInput.as_primitive_dict (tabular s)) in
  result_of (dump step s) = Returns ()
  ∧ (TabularInput.empty (tabular s) = true → dump step s = (Returns (), s, []))
  ∧ (TabularInput.empty (tabular s) = false →
     ∃ warning cells,
       trace_of (dump step s) =
         match _fieldnames s with Some _ => [] | None => [EWriteHeader (elements keys)] end
         ++ warning ++ [EWriteRow cells; EFlush] ∧
       file_events warning = [] ∧
       rows_written (trace_of (dump step s)) = [cells])
  ∧ (_fieldnames s = None ↔ header_rows (run calls __init__).2 = []).
Proof.
  intros s keys. assert (csv_inv s) as Hinv by (by apply run_csv_inv).
  split_and!.
  - destruct (TabularInput.empty (tabular s)) eqn:Hempty.
    + by rewrite dump_empty.
    + by rewrite dump_run.
  - apply dump_empty.
  - intros Hnonempty. rewrite dump_run by done. unfold trace_of. cbn [snd].
    eexists _, _. split; [done|]. split; [apply file_events_warning|].
    unfold rows_written. rewrite !omap_app. fold rows_written.
    rewrite rows_written_warning. by destruct (_fieldnames s).
  - by apply run_header_history.
Qed.

(** C3, as the code has it: in every state a sink reaches, a [dump] of an
    empty TabularInput returns at once: no warning, no row, nothing changed.
    A [dump] of a non-empty one returns normally.  If no header set is fixed
    yet it fixes the key set of this snapshot and writes the header, the row
    and a flush.  If one is fixed it stays, and the row is written and flushed
    whatever the keys: when the key set differs, [_warn] is first given the
    message formatted from the header set and the keys, which reaches
    [warnings.warn] only if warnings are enabled and this text was not given
    before.  Once fixed the header set survives every later call; a row has
    one cell per header name, holding the value recorded under that name or
    the empty string when the snapshot lacks it, so keys outside the header
    are dropped; and over the life of a sink no message text is emitted
    twice. *)
Theorem dump_fixes_header_and_warns_once (calls later : list call) (step : option Z)
    (msg : string) :
  let s := (run calls __init__).1 in
  let to_csv := TabularInput.as_primitive_dict (tabular s) in
  let keys := dict_keyset to_csv in
  (TabularInput.empty (tabular s) = true → dump step s = (Returns (), s, []))
  ∧ (TabularInput.empty (tabular s) = false →
     result_of (dump step s) = Returns ()
     ∧ match _fieldnames s with
       | None =>
           _fieldnames (state_of (dump step s)) = Some keys ∧
           trace_of (dump step s) =
             [EWriteHeader (elements keys); EWriteRow (csv_row keys to_csv); EFlush]
       | Some fieldnames =>
           _fieldnames (state_of (dump step s)) = Some fieldnames ∧
           trace_of (dump step s) =
             (if bool_decide (keys = fieldnames) then []
              else csv_emitted (inconsistent_msg fieldnames (dict_keys to_csv)) s) ++
             [EWriteRow (csv_row fieldnames to_csv); EFlush]
       end
     ∧ _fieldnames (run later (state_of (dump step s))).1
       = _fieldnames (state_of (dump step s)))
  ∧ (∀ fieldnames,
       Forall2 (λ key cell, if decide (key ∈ keys) then (key, cell) ∈ to_csv
                            else cell = VStr "")
               (elements fieldnames) (csv_row fieldnames to_csv))
  ∧ (length (List.filter (λ m, bool_decide (m = msg))
               (warnings_of csv_warning (run later __init__).2)) ≤ 1)%nat.
Proof.
  intros s to_csv keys.
  assert (csv_inv s) as Hinv by (by apply run_csv_inv).
  split_and!.
  - apply dump_empty.
  - intros Hnonempty.
    pose proof (dump_run step s Hinv Hnonempty) as Hrun. cbn zeta in Hrun.
    fold to_csv keys in Hrun.
    assert (csv_inv (state_of (dump step s))) as Hinv' by (by rewrite Hrun).
    split_and!.
    + by rewrite Hrun.
    + rewrite Hrun. unfold state_of, trace_of. cbn [fst snd _fieldnames].
      destruct (_fieldnames s) as [fieldnames|]; cbn.
      * split; [done|]. by destruct (bool_decide (keys = fieldnames)).
      * split; [done|]. by rewrite bool_decide_eq_true_2.
    + destruct (_fieldnames (state_of (dump step s))) as [fieldnames|] eqn:Hf.
      * by apply run_fieldnames.
      * exfalso. rewrite Hrun in Hf. discriminate Hf.
  - intros fieldnames. apply csv_row_cells.
  - apply NoDup_occurs_once. apply (csv_run_post later __init__).
Qed.
End csv_claims.

Section csv_claims_closed.
Import CsvOutput.

Lemma dump_writes_one_row_and_flushes_witness :
  in_every_process (λ process,
    dump None __init__ = (Returns (), __init__, [])
    ∧ ∃ warning cells,
        trace_of (dump None (run [Call_record "x" (VInt 1) ""] __init__).1)
          = [EWriteHeader ["x"]] ++ warning ++ [EWriteRow cells; EFlush]).
Proof.
  intros process. split.
  - apply (dump_writes_one_row_and_flushes [] None). reflexivity.
  - destruct (dump_writes_one_row_and_flushes [Call_record "x" (VInt 1) ""] None)
      as (_ & _ & Hrow & _).
    destruct (Hrow eq_refl) as (warning & cells & Htrace & _).
    exists warning, cells. exact Htrace.
Defined.

(** C4 fails as stated: [dump] on a sink whose TabularInput is empty writes
    no row and does not flush, and the first [dump] of a non-empty one writes
    two lines, the header and the row. *)
Lemma dump_of_empty_tabular_writes_nothing :
  in_every_process (λ process,
    rows_written (trace_of (dump None __init__)) = []
    ∧ (EFlush ∉ trace_of (dump None __init__))
    ∧ csv_lines (trace_of (dump None (run [Call_record "x" (VInt 1) ""] __init__).1))
      = [EWriteHeader ["x"]; EWriteRow [VInt 1]]).
Proof.
  intros process. split_and!; [reflexivity | apply not_elem_of_nil | by vm_compute].
Qed.

Lemma dump_fixes_header_and_warns_once_witness :
  in_every_process (λ process,
    result_of
      (dump None
         (run [Call_record "x" (VInt 1) ""; Call_record "y" (VStr "z") ""; Call_dump None;
               Call_record "x" (VInt 2) ""] __init__).1) = Returns ()
    ∧ dump None (run [Call_record "x" (VInt 1) ""; Call_dump None] __init__).1
      = (Returns (), (run [Call_record "x" (VInt 1) ""; Call_dump None] __init__).1, [])).
Proof.
  intros process. split.
  - apply (dump_fixes_header_and_warns_once
             [Call_record "x" (VInt 1) ""; Call_record "y" (VStr "z") ""; Call_dump None;
              Call_record "x" (VInt 2) ""] [] None "").
    reflexivity.
  - apply (dump_fixes_header_and_warns_once
             [Call_record "x" (VInt 1) ""; Call_dump None] [] None "").
    reflexivity.
Defined.

(** C3 fails as stated: once the header set is fixed, a [dump] of an empty
    TabularInput has a key set (the empty one) that differs from the header
    set, and writes no row. *)
Lemma dump_of_empty_tabular_after_header :
  in_every_process (λ process,
    let s := (run [Call_record "x" (VInt 1) ""; Call_record "y" (VStr "z") "";
                   Call_dump None] __init__).1 in
    _fieldnames s = Some {["x"; "y"]}
    ∧ dict_keyset (TabularInput.as_primitive_dict (tabular s)) = ∅
    ∧ (∅ : gset string) ≠ {["x"; "y"]}
    ∧ trace_of (dump None s) = []).
Proof.
  intros process. split_and!; [by vm_compute | by vm_compute | | by vm_compute].
  intros Heq. assert ("x" ∈ (∅ : gset string)) as Hin.
  { rewrite Heq. apply elem_of_union_l. by apply elem_of_singleton. }
  by apply not_elem_of_empty in Hin.
Qed.
End csv_claims_closed.

(** * Further properties of the Logger *)

Section logger_dumps.
Import Logger.

Lemma for_each_emit {St Ev A} (xs : list A) (f : A → Ev) (s : St) :
  for_each xs (λ x, emit (f x)) s = (Returns (), s, f <$> xs).
Proof.
  induction xs as [|x xs IH]; cbn; [done|].
  unfold bind. cbn. by rewrite IH.
Qed.

Lemma for_each_when_emit {St Ev A} (xs : list A) (test : A → bool) (f : A → Ev) (s : St) :
  for_each xs (λ x, when (test x) (emit (f x))) s = (Returns (), s, f <$> List.filter test xs).
Proof.
  induction xs as [|x xs IH]; cbn; [done|].
  unfold bind. destruct (test x); cbn; by rewrite IH.
Qed.

Lemma dump_all_run step s :
  dump_all step s = (Returns (), s, (λ o, EDump o step) <$> _outputs s).
Proof. unfold dump_all, bind, get. cbn. by rewrite for_each_emit. Qed.

Lemma dump_output_type_run t step s :
  dump_output_type t step s =
    (Returns (), s, (λ o, EDump o step) <$> List.filter (λ o, isinstance_obj o t) (_outputs s)).
Proof. unfold dump_output_type, bind, get. cbn. by rewrite for_each_when_emit. Qed.

(** X1: [dump_all] calls [dump(step=step)] once on each registered output,
    in registration order and as often as the output is registered, returns
    normally, issues no warning and leaves the Logger as it was. *)
Theorem dump_all_dumps_each_output (s : state) (step : option Z) :
  dump_all step s = (Returns (), s, (λ o, EDump o step) <$> _outputs s)
  ∧ length (trace_of (dump_all step s)) = length (_outputs s)
  ∧ (∀ i o, _outputs s !! i = Some o ↔ trace_of (dump_all step s) !! i = Some (EDump o step)).
Proof.
  rewrite dump_all_run. unfold trace_of. cbn [snd].
  split_and!; [done | by rewrite length_fmap |].
  intros i o. rewrite list_lookup_fmap. destruct (_outputs s !! i) as [o'|]; cbn; [|done].
  split; [by intros [= ->] | by intros [= ->]].
Qed.

(** X2: [dump_output_type t] dumps exactly the registered instances of [t],
    in registration order, and leaves the Logger as it was; it dumps nothing
    if and only if [has_output_type t] answers False, so in particular right
    after [remove_output_type t]. *)
Theorem dump_output_type_dumps_instances (s : state) (t : pyclass) (step : option Z) :
  dump_output_type t step s =
    (Returns (), s, (λ o, EDump o step) <$> List.filter (λ o, isinstance_obj o t) (_outputs s))
  ∧ (trace_of (dump_output_type t step s) = [] ↔
     result_of (has_output_type t s) = Returns false)
  ∧ trace_of (dump_output_type t step (state_of (remove_output_type t s))) = [].
Proof.
  rewrite !dump_output_type_run. unfold trace_of, result_of, has_output_type, bind, get.
  cbn. split_and!; [done | |].
  - rewrite scan_output_type_existsb.
    induction (_outputs s) as [|o outs IH]; cbn; [done|].
    destruct (isinstance_obj o t); cbn; [|exact IH]. split; intros [=].
  - by rewrite instances_of_outputs_not_of.
Qed.
End logger_dumps.

Section logger_scoped_prefix.
Import Logger.

(** X3: the context manager [prefix p] runs its body with [p] pushed, so
    with [_prefix_str] the concatenation of the old stack and [p]; if the
    body leaves the stack as it found it, then on exit the stack and the
    derived string are those of the stack before entry, whether the body
    returned or raised, and the outcome and the trace are the body's. *)
Theorem prefix_scope_restores_stack {A : Type} (p : string) (body : L A) (s : state) :
  let s1 := state_of (push_prefix p s) in
  _prefixes (state_of (body s1)) = _prefixes s1 →
  _prefix_str s1 = concat_all (_prefixes s ++ [p])
  ∧ result_of (prefix p body s) = result_of (body s1)
  ∧ trace_of (prefix p body s) = trace_of (body s1)
  ∧ _prefixes (state_of (prefix p body s)) = _prefixes s
  ∧ _prefix_str (state_of (prefix p body s)) = concat_all (_prefixes s)
  ∧ _outputs (state_of (prefix p body s)) = _outputs (state_of (body s1)).
Proof.
  cbn zeta. unfold prefix, bind. rewrite push_prefix_run.
  unfold state_of, result_of, trace_of. cbn [fst snd _prefixes _prefix_str].
  intros Hbalanced. unfold try_finally.
  destruct (body _) as [[r s2] t2] eqn:Hbody. cbn [fst snd] in *.
  rewrite pop_prefix_run, Hbalanced, del_last_snoc. cbn.
  by rewrite app_nil_r.
Qed.

Lemma prefix_scope_restores_stack_witness :
  result_of (prefix "epoch: " (add_output (PyObject 1 str_cls [] PatStartEnd))
               (state_of (push_prefix "run: " __init__)))
    = Raises (ValueError "Output object must be a subclass of LogOutput")
  ∧ _prefixes (state_of (prefix "epoch: " (add_output (PyObject 1 str_cls [] PatStartEnd))
                           (state_of (push_prefix "run: " __init__)))) = ["run: "].
Proof.
  destruct (prefix_scope_restores_stack "epoch: "
              (add_output (PyObject 1 str_cls [] PatStartEnd))
              (state_of (push_prefix "run: " __init__)) eq_refl)
    as (_ & Hres & _ & Hstack & _).
  split; [exact Hres | exact Hstack].
Defined.
End logger_scoped_prefix.

Section logger_logkv_effects.
Import Logger.

Lemma existsb_accepting outputs key value :
  existsb (λ o, accepts o key value) outputs = false ↔ accepting outputs key value = [].
Proof.
  unfold accepting. induction outputs as [|o outputs IH]; cbn; [done|].
  fold (accepts o key value). destruct (accepts o key value); cbn; [|exact IH].
  split; intros [=].
Qed.

Lemma warnings_of_records (outs : list pyobject) key value p :
  warnings_of logger_warning ((λ o, ERecord o key value p) <$> outs) = [].
Proof. unfold warnings_of. induction outs as [|o outs IH]; [done|]. exact IH. Qed.

Lemma logkv_frame key value s :
  let s' := state_of (logkv key value s) in
  _outputs s' = _outputs s ∧ _prefixes s' = _prefixes s ∧
  _prefix_str s' = _prefix_str s ∧ _disable_warnings s' = _disable_warnings s.
Proof.
  cbn zeta. rewrite logkv_run. unfold state_of. cbn [fst snd].
  by destruct (existsb _ _), (bool_decide (_outputs s = [])).
Qed.

(** X5: [logkv] returns normally and changes nothing of the Logger but the
    de-duplication set.  When some registered output accepts the value it
    changes nothing at all and issues no warning; when outputs are registered
    and none accepts, the only thing it does is hand the message naming the
    type of the value to [_warn]. *)
Theorem logkv_only_marks_warnings (s : state) (key : string) (value : pyvalue) :
  let s' := state_of (logkv key value s) in
  result_of (logkv key value s) = Returns ()
  ∧ (_outputs s' = _outputs s ∧ _prefixes s' = _prefixes s ∧
     _prefix_str s' = _prefix_str s ∧ _disable_warnings s' = _disable_warnings s)
  ∧ (accepting (_outputs s) key value ≠ [] →
     s' = s ∧ warnings_of logger_warning (trace_of (logkv key value s)) = [])
  ∧ (_outputs s ≠ [] → accepting (_outputs s) key value = [] →
     logkv key value s =
       (Returns (), logger_marked (not_accepted_msg value) s,
        logger_emitted (not_accepted_msg value) s)).
Proof.
  cbn zeta. refine (conj _ (conj _ (conj _ _))).
  - by rewrite logkv_run.
  - apply logkv_frame.
  - intros Hsome. rewrite logkv_run. unfold state_of, trace_of. cbn [fst snd].
    destruct (existsb _ _) eqn:Hlogged; [|by apply existsb_accepting in Hlogged].
    rewrite bool_decide_eq_false_2.
    + split; [done|]. rewrite app_nil_r. apply warnings_of_records.
    + intros Hnone. by rewrite Hnone in Hsome.
  - intros Hsome Hnone. rewrite logkv_run.
    apply existsb_accepting in Hnone as Hlogged. rewrite Hlogged, Hnone.
    by rewrite bool_decide_eq_false_2.
Qed.

Lemma logkv_only_marks_warnings_witness :
  state_of (logkv "loss" (VInt 3) (state_of (add_output (CsvOutput.as_object 0) __init__)))
    = state_of (add_output (CsvOutput.as_object 0) __init__)
  ∧ trace_of (logkv "table" (VTabular 1)
                (state_of (add_output (CsvOutput.as_object 0) __init__)))
    = [EWarn "Log data of type TabularInput was not accepted by any output"].
Proof.
  split.
  - apply (logkv_only_marks_warnings
             (state_of (add_output (CsvOutput.as_object 0) __init__)) "loss" (VInt 3)).
    discriminate.
  - destruct (logkv_only_marks_warnings
                (state_of (add_output (CsvOutput.as_object 0) __init__))
                "table" (VTabular 1)) as (_ & _ & _ & Hnone).
    rewrite Hnone; [reflexivity | discriminate | reflexivity].
Defined.

Lemma string_length_append (a b : string) :
  String.length (a +:+ b) = (String.length a + String.length b)%nat.
Proof.
  induction a as [|c a IH]; [done|].
  change (S (String.length (a +:+ b)) = S (String.length a + String.length b)).
  by rewrite IH.
Qed.

Lemma append_inj_l (a b1 b2 : string) : a +:+ b1 = a +:+ b2 → b1 = b2.
Proof.
  induction a as [|c a IH]; [done|].
  change (String c (a +:+ b1) = String c (a +:+ b2) → b1 = b2).
  intros [= Heq]. by apply IH.
Qed.

Lemma append_inj_r (a1 a2 b : string) : a1 +:+ b = a2 +:+ b → a1 = a2.
Proof.
  intros Heq.
  assert (String.length a1 = String.length a2) as Hlen.
  { apply (f_equal String.length) in Heq. rewrite !string_length_append in Heq. lia. }
  revert a2 Heq Hlen. induction a1 as [|c a1 IH]; intros [|c' a2] Heq Hlen; try done.
  change (String c (a1 +:+ b) = String c' (a2 +:+ b)) in Heq.
  injection Heq as -> Heq. f_equal. apply IH; [done|]. by injection Hlen.
Qed.

Lemma not_accepted_msg_inj v1 v2 :
  not_accepted_msg v1 = not_accepted_msg v2 ↔ cls_name (type_of v1) = cls_name (type_of v2).
Proof.
  unfold not_accepted_msg. split; [|by intros ->].
  intros Heq. apply append_inj_l in Heq. by apply append_inj_r in Heq.
Qed.

(** X6: the warning for a value no output accepts is keyed by the name of the
    type of the value: two values get the same message exactly when their
    types have the same [__name__], and once a value went unaccepted, logging
    any value whose type has that name, under any key, issues no warning. *)
Theorem unaccepted_warning_is_per_type_name (s : state) (k1 k2 : string)
    (v1 v2 : pyvalue) :
  accepting (_outputs s) k1 v1 = [] →
  cls_name (type_of v1) = cls_name (type_of v2) →
  warnings_of logger_warning (trace_of (logkv k2 v2 (state_of (logkv k1 v1 s)))) = []
  ∧ ∀ v3, not_accepted_msg v1 = not_accepted_msg v3 ↔
          cls_name (type_of v1) = cls_name (type_of v3).
Proof.
  intros Hnone Hname. split; [|intros v3; apply not_accepted_msg_inj].
  apply not_accepted_msg_inj in Hname.
  assert (∀ (b : bool) msg s0, msg ∈ _warned_once s0 →
    omap logger_warning (if b then logger_emitted msg s0 else []) = []) as Hq1.
  { intros b msg s0 Hin. unfold logger_emitted.
    destruct b, (_disable_warnings s0); try done; by rewrite bool_decide_eq_true_2. }
  assert (∀ (b : bool) msg s0, msg ∈ _warned_once s0 →
    omap logger_warning (if b then [] else logger_emitted msg s0) = []) as Hq2.
  { intros b msg s0 Hin. unfold logger_emitted.
    destruct b, (_disable_warnings s0); try done; by rewrite bool_decide_eq_true_2. }
  pose proof warnings_of_records as Hrecs. unfold warnings_of in Hrecs.
  rewrite (logkv_run k1 v1 s). apply existsb_accepting in Hnone as ->.
  unfold state_of. cbn [fst snd].
  rewrite logkv_run. unfold trace_of. cbn [snd].
  unfold warnings_of. rewrite !omap_app, Hrecs, <- Hname.
  destruct (bool_decide (_outputs s = [])) eqn:Hempty;
    cbn [_outputs logger_marked set_warned_once]; rewrite Hempty.
  - rewrite (Hq1 true), Hq2; [done|..]; cbn;
      repeat first [ by apply elem_of_union_r, elem_of_singleton | apply elem_of_union_l ].
  - rewrite Hq2; [done|]. cbn. by apply elem_of_union_r, elem_of_singleton.
Qed.

Lemma unaccepted_warning_is_per_type_name_witness :
  warnings_of logger_warning
    (trace_of (logkv "b" (VTabular 2)
       (state_of (logkv "a" (VTabular 1)
          (state_of (add_output (CsvOutput.as_object 0) __init__)))))) = [].
Proof.
  apply (unaccepted_warning_is_per_type_name
           (state_of (add_output (CsvOutput.as_object 0) __init__))
           "a" "b" (VTabular 1) (VTabular 2)); reflexivity.
Defined.
End logger_logkv_effects.

Section logger_registry.
Import Logger.

Local Abbreviation all_instances outs := (Forall (λ o, is_output_instance o = true) outs).

Lemma outputs_not_of_instances outs t : all_instances outs → all_instances (outputs_not_of outs t).
Proof.
  induction 1 as [|o outs Ho Houts IH]; cbn; [constructor|].
  destruct (isinstance_obj o t); cbn; [done | by constructor].
Qed.

Lemma add_output_instances output s :
  all_instances (_outputs s) → all_instances (_outputs (state_of (add_output output s))).
Proof.
  intros Hall. unfold add_output.
  destruct (isinstance_obj output type_cls) eqn:Hty; [done|].
  destruct (isinstance_obj output LogOutput_cls) eqn:Hlog; [|done].
  cbn. apply Forall_app. split; [done|]. constructor; [|constructor].
  unfold is_output_instance. by rewrite Hty, Hlog.
Qed.

Lemma perform_instances c s :
  all_instances (_outputs s) → all_instances (_outputs (state_of (perform c s))).
Proof.
  intros Hall. destruct c; cbn [perform].
  - by rewrite (proj1 (logkv_frame key value s)).
  - unfold log. by rewrite (proj1 (logkv_frame "" value s)).
  - by apply add_output_instances.
  - constructor.
  - by apply outputs_not_of_instances.
  - unfold reset_output, bind, remove_output_type, modify. cbn.
    pose proof (add_output_instances output
      (set_outputs (λ outs, outputs_not_of outs (obj_class output)) s)) as Hadd.
    unfold state_of in *.
    destruct (add_output output _) as [[r s1] t1]. cbn in *.
    apply Hadd. by apply outputs_not_of_instances.
  - done.
  - by rewrite dump_output_type_run.
  - by rewrite dump_all_run.
  - by rewrite push_prefix_run.
  - rewrite pop_prefix_run. by destruct (del_last (_prefixes s)).
  - done.
Qed.

Lemma run_instances calls s :
  all_instances (_outputs s) → all_instances (_outputs (run calls s).1).
Proof.
  revert s. induction calls as [|c calls IH]; intros s Hall; cbn; [done|].
  pose proof (perform_instances c s Hall) as Hc. unfold state_of in Hc.
  destruct (perform c s) as [[r s1] t1]. cbn in Hc.
  specialize (IH s1 Hc). by destruct (run calls s1) as [s2 t2].
Qed.

(** X7: whatever is called on a fresh Logger, every registered output is an
    instance of [LogOutput] and not a class, since [add_output] is the only
    way in; hence [has_output_type(LogOutput)] answers True exactly when some
    output is registered. *)
Theorem registry_holds_output_instances (calls : list call) :
  Forall (λ o, is_output_instance o = true) (_outputs (run calls __init__).1)
  ∧ result_of (has_output_type LogOutput_cls (run calls __init__).1)
    = Returns (negb (bool_decide (_outputs (run calls __init__).1 = []))).
Proof.
  assert (all_instances (_outputs (run calls __init__).1)) as Hall
    by (apply run_instances; constructor).
  split; [done|].
  unfold result_of, has_output_type, bind, get. cbn.
  destruct Hall as [|o outs Ho _]; cbn; [done|].
  unfold is_output_instance in Ho. apply andb_true_iff in Ho as [_ ->]. done.
Qed.

(** X8: given a class or an object that is no [LogOutput], [reset_output]
    raises ValueError like [add_output], but only after the removal: the
    registered instances of the class of the argument are gone, and nothing
    has been called. *)
Theorem reset_output_invalid_still_removes (s : state) (output : pyobject) :
  isinstance_obj output type_cls = true ∨ isinstance_obj output LogOutput_cls = false →
  ∃ msg,
    reset_output output s =
      (Raises (ValueError msg),
       set_outputs (λ outs, List.filter (λ o, negb (isinstance_obj o (obj_class output))) outs) s,
       []).
Proof.
  intros Hbad. unfold reset_output, bind, remove_output_type, modify, add_output. cbn.
  unfold set_outputs. cbn. rewrite outputs_not_of_filter.
  destruct (isinstance_obj output type_cls); [by eexists|].
  destruct Hbad as [?| ->]; [done|]. by eexists.
Qed.

Lemma reset_output_invalid_still_removes_witness :
  ∃ msg,
    reset_output (PyObject 9 object_cls [] PatStartEnd)
      (state_of (add_output (CsvOutput.as_object 0) __init__))
    = (Raises (ValueError msg), __init__, []).
Proof.
  destruct (reset_output_invalid_still_removes
              (state_of (add_output (CsvOutput.as_object 0) __init__))
              (PyObject 9 object_cls [] PatStartEnd)) as [msg Hrun].
  - right. reflexivity.
  - exists msg. exact Hrun.
Defined.
End logger_registry.

Section logger_prefix_round_trip.
Import Logger.

Lemma run_app calls1 calls2 s :
  run (calls1 ++ calls2) s =
    ((run calls2 (run calls1 s).1).1, (run calls1 s).2 ++ (run calls2 (run calls1 s).1).2).
Proof.
  revert s. induction calls1 as [|c calls1 IH]; intros s; cbn.
  - by destruct (run calls2 s).
  - destruct (perform c s) as [[r s1] t1]. rewrite IH.
    destruct (run calls1 s1) as [s2 t2]. cbn.
    destruct (run calls2 s2) as [s3 t3]. cbn. by rewrite app_assoc.
Qed.

Lemma run_pushes ps s :
  run (Call_push_prefix <$> ps) s =
    (match ps with
     | [] => s
     | _ => State (_outputs s) (_prefixes s ++ ps) (concat_all (_prefixes s ++ ps))
                  (_warned_once s) (_disable_warnings s)
     end, []).
Proof.
  revert s. induction ps as [|p ps IH]; intros s; [done|].
  cbn [fmap list_fmap run perform]. rewrite push_prefix_run, IH. cbn.
  destruct ps as [|q ps]; [done|]. by rewrite <- !app_assoc.
Qed.

Lemma run_pops outs base ps warned disabled :
  run (replicate (length ps) Call_pop_prefix)
      (State outs (base ++ ps) (concat_all (base ++ ps)) warned disabled)
  = (State outs base (concat_all base) warned disabled, []).
Proof.
  induction ps as [|p ps IH] using rev_ind; cbn.
  - by rewrite app_nil_r.
  - rewrite length_app. cbn. rewrite Nat.add_1_r. cbn [replicate run perform].
    rewrite pop_prefix_run. cbn [_prefixes]. rewrite app_assoc, del_last_snoc.
    cbn [_outputs _warned_once _disable_warnings]. by rewrite IH.
Qed.

(** X9: pushes are undone by as many pops: from a state whose derived
    string agrees with its stack, pushing any prefixes one after the other
    and then popping as many times returns to that very state; after the
    pushes alone the stack is the old one followed by the new prefixes and
    the derived string is its concatenation. *)
Theorem pushes_then_pops_restore (s : state) (ps : list string) :
  _prefix_str s = concat_all (_prefixes s) →
  run ((Call_push_prefix <$> ps) ++ replicate (length ps) Call_pop_prefix) s = (s, [])
  ∧ _prefixes (run (Call_push_prefix <$> ps) s).1 = _prefixes s ++ ps
  ∧ _prefix_str (run (Call_push_prefix <$> ps) s).1 = concat_all (_prefixes s ++ ps).
Proof.
  intros Hinv. rewrite run_app, run_pushes. cbn [fst snd].
  destruct ps as [|p ps].
  - cbn. by rewrite app_nil_r.
  - rewrite run_pops. cbn. rewrite <- Hinv. by destruct s.
Qed.

Lemma pushes_then_pops_restore_witness :
  run [Call_push_prefix "a"; Call_push_prefix "b"; Call_pop_prefix; Call_pop_prefix]
      (state_of (add_output (CsvOutput.as_object 0) __init__))
  = (state_of (add_output (CsvOutput.as_object 0) __init__), []).
Proof.
  apply (pushes_then_pops_restore
           (state_of (add_output (CsvOutput.as_object 0) __init__)) ["a"; "b"]).
  reflexivity.
Defined.
End logger_prefix_round_trip.

Section logger_defaults.
Import Logger.

(** X10: a sink that keeps the [types_accepted] of [LogOutput], the empty
    tuple, is never handed anything; a sink that keeps its [keys_accepted],
    [r'^$'], is handed a value only under the empty key or the key of one
    newline, so it gets what [log] sends (if it accepts the type) and nothing
    that [logkv] sends under any other key. *)
Theorem default_properties_route_keyless_only (s : state) (o : pyobject) (key : string)
    (value : pyvalue) (prefix : string) :
  (types_accepted o = [] →
   (o, key, value, prefix) ∉ record_calls (trace_of (logkv key value s)))
  ∧ (keys_accepted o = PatStartEnd →
     (o, key, value, prefix) ∈ record_calls (trace_of (logkv key value s)) →
     key = "" ∨ key = newline)
  ∧ (keys_accepted o = PatStartEnd → o ∈ _outputs s →
     isinstance value (types_accepted o) = true →
     (o, "", value, _prefix_str s) ∈ record_calls (trace_of (log value s))).
Proof.
  unfold log. rewrite !record_calls_logkv, !list_elem_of_fmap. split_and!.
  - intros Hty (o' & [= <-] & Hin). apply elem_of_accepting in Hin as (_ & Hacc & _).
    rewrite Hty in Hacc. discriminate Hacc.
  - intros Hkeys (o' & [= <-] & Hin). apply elem_of_accepting in Hin as (_ & _ & Hacc).
    rewrite Hkeys in Hacc. cbn in Hacc. apply orb_true_iff in Hacc.
    destruct Hacc as [Hacc|Hacc]; apply bool_decide_eq_true in Hacc; auto.
  - intros Hkeys Hin Hty. exists o. split; [done|]. apply elem_of_accepting.
    by rewrite Hkeys.
Qed.

Lemma default_properties_route_keyless_only_witness :
  (LogOutput_default 5 FileOutput_cls, "", VStr "text", "")
    ∉ record_calls (trace_of (logkv "" (VStr "text")
         (state_of (add_output (LogOutput_default 5 FileOutput_cls) __init__)))).
Proof.
  apply (default_properties_route_keyless_only
           (state_of (add_output (LogOutput_default 5 FileOutput_cls) __init__))
           (LogOutput_default 5 FileOutput_cls) "" (VStr "text") "").
  reflexivity.
Defined.
End logger_defaults.

Section logger_routing.
Import Logger.

Lemma sink_events_emitted msg s : sink_events (logger_emitted msg s) = [].
Proof.
  unfold logger_emitted. destruct (_disable_warnings s); [done|]. by destruct (bool_decide _).
Qed.

Lemma sink_events_records (outs : list pyobject) key value p :
  sink_events ((λ o, ERecord o key value p) <$> outs) = (λ o, ERecord o key value p) <$> outs.
Proof. induction outs as [|o outs IH]; cbn; [done|]. by f_equal. Qed.

Lemma sink_events_logkv key value s :
  sink_events (trace_of (logkv key value s)) =
    (λ o, ERecord o key value (_prefix_str s)) <$> accepting (_outputs s) key value.
Proof.
  rewrite logkv_run. unfold trace_of, sink_events. cbn [snd].
  rewrite !List.filter_app. fold sink_events. rewrite sink_events_records.
  assert (∀ (b : bool) msg s0, sink_events (if b then logger_emitted msg s0 else []) = [])
    as -> by (intros [] ??; [apply sink_events_emitted | done]).
  assert (∀ (b : bool) msg s0, sink_events (if b then [] else logger_emitted msg s0) = [])
    as -> by (intros [] ??; [done | apply sink_events_emitted]).
  by rewrite app_nil_r.
Qed.

Lemma same_routing_logkv key value s :
  same_routing s (state_of (logkv key value s)).
Proof. destruct (logkv_frame key value s) as (H1 & H2 & H3 & _). by split_and!. Qed.

Lemma perform_same_routing c s s' :
  same_routing s s' →
  result_of (perform c s) = result_of (perform c s')
  ∧ sink_events (trace_of (perform c s)) = sink_events (trace_of (perform c s'))
  ∧ same_routing (state_of (perform c s)) (state_of (perform c s')).
Proof.
  intros Hsame.
  assert (∀ key value,
    result_of (logkv key value s) = result_of (logkv key value s')
    ∧ sink_events (trace_of (logkv key value s)) = sink_events (trace_of (logkv key value s'))
    ∧ same_routing (state_of (logkv key value s)) (state_of (logkv key value s'))) as Hlogkv.
  { intros key value. rewrite !sink_events_logkv.
    pose proof (same_routing_logkv key value s) as (H1 & H2 & H3).
    pose proof (same_routing_logkv key value s') as (H1' & H2' & H3').
    destruct Hsame as (Ho & Hp & Hs). split_and!.
    - by rewrite !logkv_run.
    - by rewrite Ho, Hs.
    - unfold same_routing. split_and!; congruence. }
  destruct s as [outs ps pstr w d], s' as [outs' ps' pstr' w' d'].
  destruct Hsame as (Ho & Hp & Hs). cbn in Ho, Hp, Hs. subst outs' ps' pstr'.
  destruct c; cbn [perform].
  - apply Hlogkv.
  - apply Hlogkv.
  - unfold add_output.
    by destruct (isinstance_obj output type_cls), (isinstance_obj output LogOutput_cls).
  - done.
  - done.
  - unfold reset_output, add_output, bind. cbn.
    by destruct (isinstance_obj output type_cls), (isinstance_obj output LogOutput_cls).
  - done.
  - by rewrite !dump_output_type_run.
  - by rewrite !dump_all_run.
  - by rewrite !push_prefix_run.
  - rewrite !pop_prefix_run. cbn. by destruct (del_last ps).
  - done.
Qed.

Lemma run_same_routing calls s s' :
  same_routing s s' →
  sink_events (run calls s).2 = sink_events (run calls s').2
  ∧ same_routing (run calls s).1 (run calls s').1.
Proof.
  revert s s'. induction calls as [|c calls IH]; intros s s' Hsame; cbn; [done|].
  destruct (perform_same_routing c s s' Hsame) as (_ & Ht & Hs).
  unfold state_of, trace_of in *.
  destruct (perform c s) as [[r s1] t1], (perform c s') as [[r' s1'] t1']. cbn in *.
  destruct (IH s1 s1' Hs) as [Ht2 Hs2].
  destruct (run calls s1) as [s2 t2], (run calls s1') as [s2' t2']. cbn in *.
  unfold sink_events in *. by rewrite !List.filter_app, Ht, Ht2.
Qed.

(** X11: warnings do not steer the routing: along any sequence of calls,
    what the sinks are handed ([record] and [dump] calls, in order), the
    registered outputs and the prefix stack are the same whether warnings are
    enabled or disabled and whatever messages were issued before. *)
Theorem routing_ignores_warning_state (calls : list call) (s : state)
    (warned : gset string) (disabled : bool) :
  let s' := set_disable_warnings disabled (set_warned_once (λ _, warned) s) in
  sink_events (run calls s').2 = sink_events (run calls s).2
  ∧ _outputs (run calls s').1 = _outputs (run calls s).1
  ∧ _prefixes (run calls s').1 = _prefixes (run calls s).1
  ∧ _prefix_str (run calls s').1 = _prefix_str (run calls s).1.
Proof.
  cbn zeta.
  destruct (run_same_routing calls
              (set_disable_warnings disabled (set_warned_once (λ _, warned) s)) s)
    as (Ht & Ho & Hp & Hs); [done|].
  by split_and!.
Qed.
End logger_routing.

(** * Further properties of the CSV sink *)

Section csv_file.
Import CsvOutput.
Context `{PyProcess}.

(** X12: [dump] leaves the TabularInput of the sink empty, so a [dump] that
    follows another with no [record] in between returns at once: it writes
    nothing, does not flush, does not warn and changes nothing. *)
Theorem second_dump_writes_nothing (calls : list call) (step step' : option Z) :
  let s := (run calls __init__).1 in
  TabularInput.empty (tabular (state_of (dump step s))) = true
  ∧ dump step' (state_of (dump step s)) = (Returns (), state_of (dump step s), []).
Proof.
  intros s. assert (csv_inv s) as Hinv by (by apply run_csv_inv).
  assert (TabularInput.empty (tabular (state_of (dump step s))) = true) as Hempty.
  { destruct (TabularInput.empty (tabular s)) eqn:Hs.
    - by rewrite dump_empty.
    - by rewrite dump_run. }
  split; [done | by apply dump_empty].
Qed.

Lemma csv_lines_warning (mismatch : bool) msg s :
  csv_lines (if mismatch then csv_emitted msg s else []) = [].
Proof.
  unfold csv_emitted. destruct mismatch, (_disable_warnings s); try done.
  by destruct (bool_decide _).
Qed.

Lemma csv_row_length fieldnames rowdict :
  length (csv_row fieldnames rowdict) = length (elements fieldnames).
Proof. unfold csv_row. by rewrite length_fmap. Qed.

Lemma perform_lines_with_header c s fieldnames :
  csv_inv s → _fieldnames s = Some fieldnames →
  ∃ rows, csv_lines (trace_of (perform c s)) = EWriteRow <$> rows ∧
          Forall (λ cells, length cells = length (elements fieldnames)) rows.
Proof.
  intros Hinv Hf. destruct c; cbn [perform]; [by exists []| |by exists []].
  destruct (TabularInput.empty (tabular s)) eqn:Hempty.
  - rewrite dump_empty by done. by exists [].
  - rewrite dump_run by done. unfold trace_of. cbn [snd]. rewrite Hf. cbn [default].
    exists [csv_row fieldnames (TabularInput.as_primitive_dict (tabular s))].
    unfold csv_lines. rewrite !List.filter_app. fold csv_lines.
    rewrite csv_lines_warning. split; [done|].
    constructor; [apply csv_row_length | constructor].
Qed.

Lemma run_lines_with_header calls s fieldnames :
  csv_inv s → _fieldnames s = Some fieldnames →
  ∃ rows, csv_lines (run calls s).2 = EWriteRow <$> rows ∧
          Forall (λ cells, length cells = length (elements fieldnames)) rows.
Proof.
  revert s. induction calls as [|c calls IH]; intros s Hinv Hf; cbn; [by exists []|].
  destruct (perform_lines_with_header c s fieldnames Hinv Hf) as (rows1 & Hl1 & Hw1).
  pose proof (perform_csv_inv c s Hinv) as Hinv1.
  pose proof (perform_fieldnames c s fieldnames Hinv Hf) as Hf1.
  unfold state_of, trace_of in *.
  destruct (perform c s) as [[r s1] t1]. cbn in *.
  destruct (IH s1 Hinv1 Hf1) as (rows2 & Hl2 & Hw2).
  destruct (run calls s1) as [s2 t2]. cbn in *.
  exists (rows1 ++ rows2). unfold csv_lines in *.
  rewrite List.filter_app, Hl1, Hl2, fmap_app. split; [done | by apply Forall_app].
Qed.

Lemma run_lines_before_header calls s :
  csv_inv s → _fieldnames s = None →
  csv_lines (run calls s).2 = [] ∨
  ∃ (fieldnames : gset string) rows,
    csv_lines (run calls s).2 = EWriteHeader (elements fieldnames) :: (EWriteRow <$> rows) ∧
    Forall (λ cells, length cells = length (elements fieldnames)) rows.
Proof.
  revert s. induction calls as [|c calls IH]; intros s Hinv Hf; cbn; [by left|].
  assert (perform c s = (Returns (), state_of (perform c s), []) ∧
          _fieldnames (state_of (perform c s)) = None
          ∨ TabularInput.empty (tabular s) = false ∧ ∃ step, c = Call_dump step) as [[Hrun Hf1]|[Hne [step ->]]].
  { destruct c; cbn [perform]; [by left| |by left].
    destruct (TabularInput.empty (tabular s)) eqn:Hempty; [|right; eauto].
    left. by rewrite dump_empty. }
  - pose proof (perform_csv_inv c s Hinv) as Hinv1. rewrite Hrun in *.
    unfold state_of in *. cbn in *.
    destruct (IH _ Hinv1 Hf1) as [Hnone|Hsome];
      destruct (run calls _) as [s2 t2]; cbn in *; [by left | by right].
  - pose proof (perform_csv_inv (Call_dump step) s Hinv) as Hinv1.
    cbn [perform] in *. rewrite dump_run in * by done. unfold state_of in *. cbn [fst snd] in *.
    rewrite Hf in *. cbn [default] in *.
    set (keys := dict_keyset (TabularInput.as_primitive_dict (tabular s))) in *.
    destruct (run_lines_with_header calls _ keys Hinv1 eq_refl) as (rows & Hl & Hw).
    destruct (run calls _) as [s2 t2]. cbn [fst snd] in *.
    right. exists keys, (csv_row keys (TabularInput.as_primitive_dict (tabular s)) :: rows).
    unfold csv_lines in *. rewrite !List.filter_app. fold csv_lines.
    rewrite csv_lines_warning. cbn. unfold csv_lines. rewrite Hl.
    split; [done|]. constructor; [apply csv_row_length | done].
Qed.

(** X13: over the life of a sink the file is rectangular: either nothing is
    written, or the lines written are one header followed only by data rows,
    each with exactly as many cells as the header has names. *)
Theorem csv_file_is_rectangular (calls : list call) :
  csv_lines (run calls __init__).2 = [] ∨
  ∃ names rows,
    csv_lines (run calls __init__).2 = EWriteHeader names :: (EWriteRow <$> rows) ∧
    Forall (λ cells, length cells = length names) rows.
Proof.
  destruct (run_lines_before_header calls __init__) as [Hnone|(f & rows & Hl & Hw)];
    [done | done | by left |].
  right. by exists (elements f), rows.
Qed.
End csv_file.

Section csv_warning_independence.
Import CsvOutput.
Context `{PyProcess}.

Lemma same_file_inv s s' : same_file s s' → csv_inv s → csv_inv s'.
Proof. intros (Hw & Hf & _). unfold csv_inv. by rewrite Hw, Hf. Qed.

Lemma perform_same_file c s s' :
  csv_inv s → same_file s s' →
  file_events (trace_of (perform c s)) = file_events (trace_of (perform c s'))
  ∧ same_file (state_of (perform c s)) (state_of (perform c s')).
Proof.
  intros Hinv Hsame. pose proof (same_file_inv _ _ Hsame Hinv) as Hinv'.
  destruct Hsame as (Hw & Hf & Ht). destruct c; cbn [perform].
  - unfold record, modify, state_of, trace_of, same_file. cbn. by rewrite Hw, Hf, Ht.
  - destruct (TabularInput.empty (tabular s)) eqn:Hempty.
    + rewrite !dump_empty by congruence. done.
    + rewrite !dump_run by congruence. unfold state_of, trace_of, same_file. cbn [fst snd].
      rewrite <- Hf, <- Ht. split; [|done].
      unfold file_events. rewrite !List.filter_app. fold file_events.
      by rewrite !file_events_warning.
  - done.
Qed.

Lemma run_same_file calls s s' :
  csv_inv s → same_file s s' →
  file_events (run calls s).2 = file_events (run calls s').2.
Proof.
  revert s s'. induction calls as [|c calls IH]; intros s s' Hinv Hsame; cbn; [done|].
  destruct (perform_same_file c s s' Hinv Hsame) as [Ht Hs].
  pose proof (perform_csv_inv c s Hinv) as Hinv1.
  unfold state_of, trace_of in *.
  destruct (perform c s) as [[r s1] t1], (perform c s') as [[r' s1'] t1']. cbn in *.
  specialize (IH s1 s1' Hinv1 Hs).
  destruct (run calls s1) as [s2 t2], (run calls s1') as [s2' t2']. cbn in *.
  unfold file_events in *. by rewrite !List.filter_app, Ht, IH.
Qed.

(** The row a [dump] of a non-empty TabularInput writes: the snapshot under
    the header set, which is the key set of the snapshot if none is fixed *)
Lemma dump_rows step s :
  csv_inv s → TabularInput.empty (tabular s) = false →
  rows_written (trace_of (dump step s)) =
    [csv_row (default (dict_keyset (TabularInput.as_primitive_dict (tabular s)))
                      (_fieldnames s))
             (TabularInput.as_primitive_dict (tabular s))].
Proof.
  intros Hinv Hnonempty. rewrite dump_run by done. unfold trace_of. cbn [snd].
  unfold rows_written. rewrite !omap_app. fold rows_written.
  rewrite rows_written_warning. by destruct (_fieldnames s).
Qed.

(** X14: warnings do not change the file: from any state a sink reaches,
    the header, the rows and the flushes of any further sequence of calls are
    the same whether warnings are enabled or disabled and whatever messages
    were issued before; and a [dump] of a non-empty TabularInput writes the
    row of the snapshot under the header set whether its keys match the
    header or not: a key-set mismatch costs a warning, never a row. *)
Theorem csv_file_ignores_warning_state (before calls : list call) (warned : gset string)
    (disabled : bool) (step : option Z) :
  let s := (run before __init__).1 in
  let s' := set_disable_warnings disabled (set_warned_once (λ _, warned) s) in
  let to_csv := TabularInput.as_primitive_dict (tabular s) in
  file_events (run calls s').2 = file_events (run calls s).2
  ∧ (TabularInput.empty (tabular s) = false →
     rows_written (trace_of (dump step s'))
       = [csv_row (default (dict_keyset to_csv) (_fieldnames s)) to_csv]).
Proof.
  intros s s' to_csv. assert (csv_inv s) as Hinv by (by apply run_csv_inv).
  split.
  - symmetry. by apply run_same_file.
  - intros Hnonempty. by apply (dump_rows step s').
Qed.

Lemma rows_and_flushes_warning (mismatch : bool) msg s :
  rows_and_flushes (if mismatch then csv_emitted msg s else []) = [].
Proof.
  unfold csv_emitted. destruct mismatch, (_disable_warnings s); try done.
  by destruct (bool_decide _).
Qed.

Lemma perform_rows_and_flushes c s :
  csv_inv s →
  rows_and_flushes (trace_of (perform c s)) =
    mjoin ((λ cells, [EWriteRow cells; EFlush]) <$> rows_written (trace_of (perform c s))).
Proof.
  intros Hinv. destruct c; cbn [perform]; [done| |done].
  destruct (TabularInput.empty (tabular s)) eqn:Hempty.
  - by rewrite dump_empty.
  - rewrite dump_rows by done. rewrite dump_run by done. unfold trace_of. cbn [snd].
    unfold rows_and_flushes. rewrite !List.filter_app.
    fold rows_and_flushes. rewrite rows_and_flushes_warning.
    by destruct (_fieldnames s).
Qed.

(** X15: over the life of a sink every data row is followed at once by a
    flush and nothing else is flushed: the rows and flushes of the trace are
    the rows written, each with its flush, so the header reaches the file no
    later than the first row. *)
Theorem every_row_is_flushed (calls : list call) :
  rows_and_flushes (run calls __init__).2 =
    mjoin ((λ cells, [EWriteRow cells; EFlush]) <$> rows_written (run calls __init__).2).
Proof.
  assert (∀ s, csv_inv s →
    rows_and_flushes (run calls s).2 =
      mjoin ((λ cells, [EWriteRow cells; EFlush]) <$> rows_written (run calls s).2)) as Hgen.
  { induction calls as [|c calls IH]; intros s Hinv; cbn; [done|].
    pose proof (perform_rows_and_flushes c s Hinv) as Hc.
    pose proof (perform_csv_inv c s Hinv) as Hinv1.
    unfold state_of, trace_of in *.
    destruct (perform c s) as [[r s1] t1]. cbn in *.
    specialize (IH s1 Hinv1). destruct (run calls s1) as [s2 t2]. cbn in *.
    unfold rows_and_flushes, rows_written in *.
    by rewrite List.filter_app, omap_app, fmap_app, join_app, Hc, IH. }
  by apply Hgen.
Qed.
End csv_warning_independence.

Section logger_remove_all.
Import Logger.

Lemma outputs_not_of_LogOutput outs :
  Forall (λ o, is_output_instance o = true) outs → outputs_not_of outs LogOutput_cls = [].
Proof.
  induction 1 as [|o outs Ho _ IH]; cbn; [done|].
  unfold is_output_instance in Ho. apply andb_true_iff in Ho as [_ ->]. exact IH.
Qed.

(** X16: after [remove_all] no output type is present, [dump_all] dumps
    nothing and [logkv] hands the value to no sink; the prefix stack and the
    warning state are kept.  On a Logger that started fresh, [remove_all]
    leaves the same state as [remove_output_type(LogOutput)]. *)
Theorem remove_all_empties_registry (calls : list call) (s : state) (t : pyclass)
    (step : option Z) (key : string) (value : pyvalue) :
  let s' := state_of (remove_all s) in
  result_of (has_output_type t s') = Returns false
  ∧ trace_of (dump_all step s') = []
  ∧ record_calls (trace_of (logkv key value s')) = []
  ∧ (_prefixes s' = _prefixes s ∧ _prefix_str s' = _prefix_str s ∧
     _warned_once s' = _warned_once s ∧ _disable_warnings s' = _disable_warnings s)
  ∧ state_of (remove_output_type LogOutput_cls (run calls __init__).1)
    = state_of (remove_all (run calls __init__).1).
Proof.
  cbn zeta.
  split_and!;
    [done | by rewrite dump_all_run | by rewrite record_calls_logkv | done..|].
  unfold state_of, remove_output_type, remove_all, modify, set_outputs. cbn.
  rewrite outputs_not_of_LogOutput; [done|].
  apply run_instances. constructor.
Qed.
End logger_remove_all.

Section csv_disable.
Import CsvOutput.
Context `{PyProcess}.

(** X17: once [disable_warnings] has been called on a sink, the flag stays
    set through every later call and no warning is issued, while a warning
    that would have been issued is still entered in the de-duplication set;
    and a [dump] of a non-empty TabularInput by a sink with warnings disabled
    issues no warning and writes the row of the snapshot under the header
    set, whether the keys match the header or not: mismatching key sets are
    then written without any notice. *)
Theorem csv_disable_warnings_silences (s : state) (before calls : list call)
    (step : option Z) (msg : string) :
  let s0 := state_of (disable_warnings s) in
  let sr := state_of (disable_warnings (run before __init__).1) in
  let to_csv := TabularInput.as_primitive_dict (tabular sr) in
  _disable_warnings (run calls s0).1 = true
  ∧ warnings_of csv_warning (run calls s0).2 = []
  ∧ _warn msg s0 = (Returns msg, set_warned_once (λ w, w ∪ {[msg]}) s0, [])
  ∧ (TabularInput.empty (tabular sr) = false →
     warnings_of csv_warning (trace_of (dump step sr)) = []
     ∧ rows_written (trace_of (dump step sr))
       = [csv_row (default (dict_keyset to_csv) (_fieldnames sr)) to_csv]).
Proof.
  cbn zeta. split_and!.
  - by apply (csv_run_post calls (set_disable_warnings true s)).
  - by apply (csv_run_post calls (set_disable_warnings true s)).
  - by rewrite csv_warn_run.
  - intros Hnonempty.
    assert (csv_inv (state_of (disable_warnings (run before __init__).1))) as Hinv
      by (by apply (run_csv_inv before __init__)).
    split; [|by apply dump_rows].
    by apply (csv_safe_perform (Call_dump step)
                (state_of (disable_warnings (run before __init__).1))).
Qed.
End csv_disable.

Section csv_extras_closed.
Import CsvOutput.

Lemma csv_file_ignores_warning_state_witness :
  in_every_process (λ process,
    rows_written
      (trace_of (dump None
         (set_disable_warnings false (set_warned_once (λ _, ∅)
            (run [Call_record "x" (VInt 1) ""; Call_record "y" (VStr "z") "";
                  Call_dump None; Call_record "x" (VInt 2) ""] __init__).1))))
    = [[VStr ""; VInt 2]]).
Proof.
  intros process.
  apply (csv_file_ignores_warning_state
           [Call_record "x" (VInt 1) ""; Call_record "y" (VStr "z") "";
            Call_dump None; Call_record "x" (VInt 2) ""] [] ∅ false None).
  reflexivity.
Defined.

Lemma csv_disable_warnings_silences_witness :
  in_every_process (λ process,
    warnings_of csv_warning
      (trace_of (dump None
         (state_of (disable_warnings
            (run [Call_record "x" (VInt 1) ""; Call_record "y" (VStr "z") "";
                  Call_dump None; Call_record "x" (VInt 2) ""] __init__).1)))) = []).
Proof.
  intros process.
  apply (csv_disable_warnings_silences __init__
           [Call_record "x" (VInt 1) ""; Call_record "y" (VStr "z") "";
            Call_dump None; Call_record "x" (VInt 2) ""] [] None "").
  reflexivity.
Defined.
End csv_extras_closed.
